(** * WerchterNews: a shallow embedding of the news monitor

    The development follows the layout of the repository:

    - [DateParser]  src/utils/date_parser.py
    - [Models]      src/models.py
    - [Storage]     src/services/storage_services.py
    - [Telegram]    src/services/telegram_services.py
    - [News]        src/services/news_services.py
    - [Monitor]     monitor.py

    Python text is modelled by [string] (ASCII text), integers by [Z], the
    dictionary of processed news by a [gmap] and the set of processed links
    by a [gset]; the results proved on the dictionary do not depend on the
    order in which it is traversed.  Exceptions are explicit: a call that
    may raise returns a [result].  What comes from outside (the site, the
    messaging client, the clock) is read from an [Env], and what the program
    does to the outside is recorded, in order, in the [trace] of a [World]. *)

From Stdlib Require Import ZArith Ascii String List Bool Lia.
From stdpp Require Import gmap strings list fin_maps pretty sorting.

Local Open Scope Z_scope.

(** ** Exceptions *)

Inductive exn : Type :=
  | ValueError
  | KeyError
  | TypeError
  | OtherError.

Inductive result (A : Type) : Type :=
  | Return (a : A)
  | Raise (e : exn).
Arguments Return {A} a.
Arguments Raise {A} e.

(** ** datetime

    A naive [datetime]: the calendar date and the microsecond of the day.
    Only the operations the program uses are modelled: comparison,
    subtraction followed by [.days], and construction from a date. *)

Record datetime : Type := mkDatetime {
  year : Z;
  month : Z;
  day : Z;
  microsecond_of_day : Z
}.

Module Datetime.

Definition US_PER_DAY : Z := 86400 * 1000000.

Definition _is_leap (y : Z) : bool :=
  (y mod 4 =? 0) && (negb (y mod 100 =? 0) || (y mod 400 =? 0)).

Definition _days_before_year (y : Z) : Z :=
  let p := y - 1 in p * 365 + p / 4 - p / 100 + p / 400.

Definition _DAYS_IN_MONTH : list Z :=
  [31; 28; 31; 30; 31; 30; 31; 31; 30; 31; 30; 31].

Definition _days_in_month (y m : Z) : Z :=
  if (m =? 2) && _is_leap y then 29
  else nth (Z.to_nat (m - 1)) _DAYS_IN_MONTH 0.

Definition _days_before_month (y m : Z) : Z :=
  fold_right Z.add 0 (firstn (Z.to_nat (m - 1)) _DAYS_IN_MONTH)
  + (if (2 <? m) && _is_leap y then 1 else 0).

Definition _ymd2ord (y m d : Z) : Z :=
  _days_before_year y + _days_before_month y m + d.

(** [datetime(y, m, d)]: refuses a date that does not exist. *)
Definition make (y m d : Z) : result datetime :=
  if (1 <=? y) && (y <=? 9999) && (1 <=? m) && (m <=? 12)
     && (1 <=? d) && (d <=? _days_in_month y m)
  then Return (mkDatetime y m d 0)
  else Raise ValueError.

(** Microseconds since the start of the proleptic calendar. *)
Definition to_micros (t : datetime) : Z :=
  _ymd2ord (year t) (month t) (day t) * US_PER_DAY + microsecond_of_day t.

(** [a < b] on two naive datetimes. *)
Definition ltb (a b : datetime) : bool :=
  (year a <? year b)
  || ((year a =? year b)
      && ((month a <? month b)
          || ((month a =? month b)
              && ((day a <? day b)
                  || ((day a =? day b)
                      && (microsecond_of_day a <? microsecond_of_day b)))))).

(** [(a - b).days]: a timedelta is normalised so that its seconds and
    microseconds are non-negative, hence the floor. *)
Definition sub_days (a b : datetime) : Z :=
  (to_micros a - to_micros b) / US_PER_DAY.

Definition MONTH_NAMES : list string :=
  ["January"; "February"; "March"; "April"; "May"; "June"; "July";
   "August"; "September"; "October"; "November"; "December"]%string.

End Datetime.

(** ** Python [str] methods on ASCII text *)

Module Str.

Definition code (c : ascii) : N := N_of_ascii c.

Definition between (lo hi : N) (c : ascii) : bool :=
  ((lo <=? code c) && (code c <=? hi))%N.

Definition is_digit : ascii -> bool := between 48 57.
Definition is_upper : ascii -> bool := between 65 90.
Definition is_lower : ascii -> bool := between 97 122.

(** [str.isspace] on one character, which is also what [\s] matches. *)
Definition is_space (c : ascii) : bool := between 9 13 c || between 28 32 c.

Definition to_lower (c : ascii) : ascii :=
  if is_upper c then ascii_of_N (code c + 32) else c.

Definition to_upper (c : ascii) : ascii :=
  if is_lower c then ascii_of_N (code c - 32) else c.

Fixpoint lower (s : string) : string :=
  match s with
  | EmptyString => EmptyString
  | String c r => String (to_lower c) (lower r)
  end.

Fixpoint lstrip (s : string) : string :=
  match s with
  | EmptyString => EmptyString
  | String c r => if is_space c then lstrip r else s
  end.

Fixpoint rstrip (s : string) : string :=
  match s with
  | EmptyString => EmptyString
  | String c r =>
      match rstrip r with
      | EmptyString => if is_space c then EmptyString else String c EmptyString
      | r' => String c r'
      end
  end.

Definition strip (s : string) : string := rstrip (lstrip s).

Fixpoint startswith (p s : string) : bool :=
  match p, s with
  | EmptyString, _ => true
  | String a p', String b s' => if Ascii.eqb a b then startswith p' s' else false
  | String _ _, EmptyString => false
  end.

Fixpoint drop (n : nat) (s : string) : string :=
  match n, s with
  | O, _ => s
  | S n', String _ r => drop n' r
  | S _, EmptyString => EmptyString
  end.

(** [s.replace(old, new)] for a non-empty [old]: occurrences are replaced
    from left to right and do not overlap.  [skip] counts the characters
    of a match that are still to be passed over. *)
Fixpoint replace_from (old new : string) (skip : nat) (s : string) : string :=
  match s with
  | EmptyString => EmptyString
  | String c r =>
      match skip with
      | S k => replace_from old new k r
      | O =>
          if startswith old s
          then new +:+ replace_from old new (String.length old - 1) r
          else String c (replace_from old new O r)
      end
  end.

Definition replace (old new s : string) : string :=
  match old with
  | EmptyString => s
  | _ => replace_from old new O s
  end.

(** [s.title()]: a letter that follows a letter is lower-cased, any other
    letter is upper-cased. *)
Fixpoint title_from (prev_cased : bool) (s : string) : string :=
  match s with
  | EmptyString => EmptyString
  | String c r =>
      if is_lower c then
        String (if prev_cased then c else to_upper c) (title_from true r)
      else if is_upper c then
        String (if prev_cased then to_lower c else c) (title_from true r)
      else String c (title_from false r)
  end.

Definition title (s : string) : string := title_from false s.

Definition is_empty (s : string) : bool :=
  match s with EmptyString => true | _ => false end.

End Str.

(** ** [datetime.strptime] for the directives the program uses

    The format is compiled to a pattern, the pattern is matched against the
    start of the text with the alternatives of each directive tried in their
    order, the whole text has to be consumed, and the date has to exist.
    Every failure is a [ValueError].  Month names are those of the English
    locale and are matched without regard to case. *)

Module Strptime.

Inductive token : Type :=
  | TDay            (* %d *)
  | TMonthNum       (* %m *)
  | TYear           (* %Y *)
  | TMonthName      (* %B *)
  | TSpaces         (* a run of white space in the format *)
  | TChar (c : ascii)
  | TBadDirective.

Fixpoint compile_from (in_space : bool) (fmt : string) : list token :=
  match fmt with
  | EmptyString => []
  | String c r =>
      if Ascii.eqb c "%" then
        match r with
        | String d r' =>
            (if Ascii.eqb d "d" then TDay
             else if Ascii.eqb d "m" then TMonthNum
             else if Ascii.eqb d "Y" then TYear
             else if Ascii.eqb d "B" then TMonthName
             else TBadDirective) :: compile_from false r'
        | EmptyString => [TBadDirective]
        end
      else if Str.is_space c then
        if in_space then compile_from true r else TSpaces :: compile_from true r
      else TChar c :: compile_from false r
  end.

Definition compile (fmt : string) : list token := compile_from false fmt.

(** The fields found so far: year, month, day. *)
Record found : Type := mkFound { f_year : Z; f_month : Z; f_day : Z }.

Definition found_default : found := mkFound 1900 1 1.

Definition set_year (v : Z) (f : found) := mkFound v (f_month f) (f_day f).
Definition set_month (v : Z) (f : found) := mkFound (f_year f) v (f_day f).
Definition set_day (v : Z) (f : found) := mkFound (f_year f) (f_month f) v.

Definition digit_val (c : ascii) : Z := Z.of_N (Str.code c) - 48.

(** One alternative of a directive: the characters it accepts, position
    by position. *)
Fixpoint accepts (classes : list (ascii -> bool)) (s : string)
  : option (list ascii * string) :=
  match classes with
  | [] => Some ([], s)
  | p :: ps =>
      match s with
      | String c r =>
          if p c then
            match accepts ps r with
            | Some (cs, rest) => Some (c :: cs, rest)
            | None => None
            end
          else None
      | EmptyString => None
      end
  end.

(** [int(text)] for text made of digits, a leading blank allowed. *)
Definition int_of (cs : list ascii) : Z :=
  fold_left (fun acc c => if Str.is_digit c then acc * 10 + digit_val c else acc)
            cs 0.

Definition alternatives (alts : list (list (ascii -> bool))) (s : string)
  : list (Z * string) :=
  flat_map (fun alt =>
              match accepts alt s with
              | Some (cs, rest) => [(int_of cs, rest)]
              | None => []
              end) alts.

Definition one (c : ascii) : ascii -> bool := Ascii.eqb c.

(** 3[0-1] | [1-2]\d | 0[1-9] | [1-9] | blank [1-9] *)
Definition DAY_ALTS : list (list (ascii -> bool)) :=
  [ [one "3"; Str.between 48 49];
    [Str.between 49 50; Str.is_digit];
    [one "0"; Str.between 49 57];
    [Str.between 49 57];
    [one " "; Str.between 49 57] ].

(** 1[0-2] | 0[1-9] | [1-9] *)
Definition MONTH_ALTS : list (list (ascii -> bool)) :=
  [ [one "1"; Str.between 48 50];
    [one "0"; Str.between 49 57];
    [Str.between 49 57] ].

(** \d\d\d\d *)
Definition YEAR_ALTS : list (list (ascii -> bool)) :=
  [ [Str.is_digit; Str.is_digit; Str.is_digit; Str.is_digit] ].

Fixpoint month_names_from (i : Z) (names : list string) (s : string)
  : list (Z * string) :=
  match names with
  | [] => []
  | n :: ns =>
      (if Str.startswith (Str.lower n) (Str.lower s)
       then [(i, Str.drop (String.length n) s)] else [])
      ++ month_names_from (i + 1) ns s
  end.

(** \s+ is greedy: the longest run first, then shorter ones. *)
Fixpoint spaces (s : string) : list string :=
  match s with
  | String c r => if Str.is_space c then spaces r ++ [r] else []
  | EmptyString => []
  end.

Definition candidates (t : token) (s : string) : list ((found -> found) * string) :=
  match t with
  | TDay => map (fun '(v, r) => (set_day v, r)) (alternatives DAY_ALTS s)
  | TMonthNum => map (fun '(v, r) => (set_month v, r)) (alternatives MONTH_ALTS s)
  | TYear => map (fun '(v, r) => (set_year v, r)) (alternatives YEAR_ALTS s)
  | TMonthName =>
      map (fun '(v, r) => (set_month v, r)) (month_names_from 1 Datetime.MONTH_NAMES s)
  | TSpaces => map (fun r => (fun f => f, r)) (spaces s)
  | TChar c =>
      match s with
      | String c' r => if Ascii.eqb c c' then [(fun f => f, r)] else []
      | EmptyString => []
      end
  | TBadDirective => []
  end.

(** The first way, in the order of the alternatives, in which the pattern
    matches a prefix of the text. *)
Fixpoint regex_match (toks : list token) (s : string) (f : found)
  : option (found * string) :=
  match toks with
  | [] => Some (f, s)
  | t :: ts =>
      (fix first_of (cs : list ((found -> found) * string)) :=
         match cs with
         | [] => None
         | (upd, rest) :: cs' =>
             match regex_match ts rest (upd f) with
             | Some r => Some r
             | None => first_of cs'
             end
         end) (candidates t s)
  end.

Definition has_bad_directive (toks : list token) : bool :=
  existsb (fun t => match t with TBadDirective => true | _ => false end) toks.

Definition strptime (data_string format : string) : result datetime :=
  let toks := compile format in
  if has_bad_directive toks then Raise ValueError
  else
    match regex_match toks data_string found_default with
    | None => Raise ValueError
    | Some (f, rest) =>
        if Str.is_empty rest
        then Datetime.make (f_year f) (f_month f) (f_day f)
        else Raise ValueError
    end.

End Strptime.

(** ** src/utils/date_parser.py *)

Module DateParser.

Definition DATE_FORMATS : list string :=
  [ "%d %B %Y";
    "%B %d %Y";
    "%Y-%m-%d";
    "%d-%m-%Y";
    "%d/%m/%Y" ]%string.

Definition MONTH_REPLACEMENTS : list (string * string) :=
  [ ("januari", "january");
    ("februari", "february");
    ("maart", "march");
    ("mei", "may");
    ("juni", "june");
    ("juli", "july");
    ("augustus", "august");
    ("oktober", "october");
    ("december", "december") ]%string.

Definition _normalize_date_string (date_str : string) : string :=
  let normalized := Str.strip (Str.lower date_str) in
  let normalized :=
    fold_left (fun acc '(dutch, english) => Str.replace dutch english acc)
              MONTH_REPLACEMENTS normalized in
  Str.title normalized.

(** The loop over [DATE_FORMATS]: a [ValueError] moves on to the next
    format, any other exception leaves the function. *)
Fixpoint try_formats (clean_date : string) (formats : list string)
  : result (option datetime) :=
  match formats with
  | [] => Return None
  | date_format :: rest =>
      match Strptime.strptime clean_date date_format with
      | Return t => Return (Some t)
      | Raise ValueError => try_formats clean_date rest
      | Raise e => Raise e
      end
  end.

Definition parse_date (date_str : string) : result (option datetime) :=
  if Str.is_empty date_str then Return None
  else try_formats (_normalize_date_string date_str) DATE_FORMATS.

(** [date.strftime("%d %B %Y")]: the day on two digits, the English month
    name, the year in decimal. *)
Definition strftime_d_B_Y (t : datetime) : string :=
  (if day t <? 10 then "0" else "") +:+ pretty (day t) +:+ " "
  +:+ nth (Z.to_nat (month t - 1)) Datetime.MONTH_NAMES "" +:+ " "
  +:+ pretty (year t).

Definition format_date (date : option datetime) : string :=
  match date with
  | None => "Fecha no disponible"
  | Some t => strftime_d_B_Y t
  end.

End DateParser.

(** ** src/models.py *)

Module Models.

Record NewsItem : Type := mkNewsItem {
    title : string;
    date : string;
    link : string;
    image_url : option string;
    _parsed_date : option datetime
  }.

(** The generated constructor followed by [__post_init__]: whatever is given
    for [_parsed_date] is replaced by the parse of [date]. *)
Definition new (title date link : string) (image_url : option string)
    : result NewsItem :=
  match DateParser.parse_date date with
  | Return parsed => Return (mkNewsItem title date link image_url parsed)
  | Raise e => Raise e
  end.

Definition formatted_date (self : NewsItem) : string :=
  DateParser.format_date (_parsed_date self).

(** Order by date, ascending; an item without a parsed date goes last. *)
Definition __lt__ (self other : NewsItem) : bool :=
  match _parsed_date self with
  | None => false
  | Some a =>
      match _parsed_date other with
      | None => true
      | Some b => Datetime.ltb a b
      end
  end.

Definition __eq__ (self other : NewsItem) : bool :=
  String.eqb (link self) (link other).

(** [if news_item.image_url]: absent and empty both count as no image. *)
Definition has_image (self : NewsItem) : bool :=
  match image_url self with
  | None => false
  | Some u => negb (Str.is_empty u)
  end.

End Models.

Import Models.

(** ** What the program does to the outside, in the order it does it *)

Inductive event : Type :=
| EvFetch
| EvAttempt (item_link : string) (photo : bool)
| EvSleep (seconds : Z)
| EvMark (item_link : string)
| EvCleanup.

(** ** src/services/storage_services.py *)

(** The [processed_at] entry of a stored record.  [isoformat()] writes text
    that [fromisoformat] reads back as the same naive datetime: [IsoText].
    The file may hold anything else (no such key, not text, not ISO-8601, a
    time with an offset): computing the age of such a record raises. *)
Inductive processed_at_value : Type :=
| IsoText (t : datetime)
| BadValue (e : exn).

Record ProcessedRecord : Type := mkProcessedRecord {
  r_title : string;
  r_date : string;
  r_link : string;
  r_image_url : option string;
  r_processed_at : processed_at_value
}.

(** The file at [storage_path]. *)
Inductive file_state : Type :=
| Missing
| Unreadable
| Json (content : gmap string ProcessedRecord).

Record StorageService : Type := mkStorageService {
  _processed_news : gmap string ProcessedRecord;
  _processed_links : gset string;
  file : file_state;
  writable : bool;          (* does [write_text] succeed *)
  saves : nat               (* calls of [_save_processed_news] so far *)
}.

Module Storage.

Definition set_memory (news : gmap string ProcessedRecord) (links : gset string)
    (s : StorageService) : StorageService :=
  mkStorageService news links (file s) (writable s) (saves s).

(** An error while writing is logged and goes no further. *)
Definition _save_processed_news (data : option (gmap string ProcessedRecord))
    (s : StorageService) : StorageService :=
  let content := match data with Some d => d | None => _processed_news s end in
  mkStorageService (_processed_news s) (_processed_links s)
    (if writable s then Json content else file s)
    (writable s) (S (saves s)).

Definition _ensure_storage_exists (s : StorageService) : StorageService :=
  match file s with
  | Missing => _save_processed_news (Some ∅) s
  | _ => s
  end.

Definition _load_processed_news (s : StorageService) : StorageService :=
  match file s with
  | Json content => set_memory content (dom content) s
  | _ => set_memory ∅ ∅ s
  end.

(** The constructor, on a given file. *)
Definition __init__ (f : file_state) (can_write : bool) : StorageService :=
  _load_processed_news
    (_ensure_storage_exists (mkStorageService ∅ ∅ f can_write 0)).

Definition is_processed (s : StorageService) (news_item : NewsItem) : bool :=
  bool_decide (link news_item ∈ _processed_links s).

Definition record_of (news_item : NewsItem) (now : datetime) : ProcessedRecord :=
  mkProcessedRecord (title news_item) (formatted_date news_item)
    (link news_item) (image_url news_item) (IsoText now).

Definition mark_as_processed (news_item : NewsItem) (now : datetime)
    (s : StorageService) : StorageService :=
  if is_processed s news_item then s
  else
    _save_processed_news None
      (set_memory (<[link news_item := record_of news_item now]> (_processed_news s))
                  ({[link news_item]} ∪ _processed_links s) s).

Definition get_unprocessed_news (s : StorageService) (news_items : list NewsItem)
    : list NewsItem :=
  List.filter (fun news_item => negb (is_processed s news_item)) news_items.

(** [(current_time - fromisoformat(data['processed_at'])).days] *)
Definition age_days (current_time : datetime) (data : ProcessedRecord) : result Z :=
  match r_processed_at data with
  | IsoText processed_time => Return (Datetime.sub_days current_time processed_time)
  | BadValue e => Raise e
  end.

(** The first loop of [cleanup_old_entries]: the links to remove, in the
    order of the dictionary; it stops at the first record whose age cannot
    be computed. *)
Fixpoint entries_to_remove (current_time : datetime) (max_age_days : Z)
    (items : list (string * ProcessedRecord)) : result (list string) :=
  match items with
  | [] => Return []
  | (l, data) :: rest =>
      match age_days current_time data with
      | Raise e => Raise e
      | Return age =>
          match entries_to_remove current_time max_age_days rest with
          | Raise e => Raise e
          | Return ls => Return (if max_age_days <? age then l :: ls else ls)
          end
      end
  end.

(** The second loop: [pop] from the dictionary, [remove] from the set; each
    raises a [KeyError] when the link is not there, and what was removed
    before stays removed. *)
Fixpoint remove_entries (links : list string) (s : StorageService)
    : result unit * StorageService :=
  match links with
  | [] => (Return tt, s)
  | l :: rest =>
      match _processed_news s !! l with
      | None => (Raise KeyError, s)
      | Some _ =>
          let s1 := set_memory (delete l (_processed_news s)) (_processed_links s) s in
          if bool_decide (l ∈ _processed_links s1)
          then remove_entries rest
                 (set_memory (_processed_news s1) (_processed_links s1 ∖ {[l]}) s1)
          else (Raise KeyError, s1)
      end
  end.

Definition cleanup_old_entries (max_age_days : Z) (current_time : datetime)
    (s : StorageService) : StorageService :=
  match entries_to_remove current_time max_age_days
          (map_to_list (_processed_news s)) with
  | Raise _ => s
  | Return to_remove =>
      match remove_entries to_remove s with
      | (Raise _, s1) => s1
      | (Return _, s1) =>
          match to_remove with
          | [] => s1
          | _ => _save_processed_news None s1
          end
      end
  end.

Definition DEFAULT_MAX_AGE_DAYS : Z := 30.

End Storage.

(** ** The outside world

    What the program cannot decide by itself is read from an [Env]: whether
    the n-th delivery attempt goes through, what the n-th reading of the
    clock is, what the n-th request to the site gives. *)

Inductive response : Type :=
| HttpResponse (status : Z) (cards : list NewsItem)
| HttpFailure (e : exn).

Record Env : Type := mkEnv {
  attempt_succeeds : nat -> bool;
  clock : nat -> datetime;
  site : nat -> response
}.

Record World : Type := mkWorld {
  storage : StorageService;
  attempts_made : nat;
  clock_reads : nat;
  requests_made : nat;
  trace : list event
}.

Definition emit (e : event) (w : World) : World :=
  mkWorld (storage w) (attempts_made w) (clock_reads w) (requests_made w)
          (trace w ++ [e]).

Definition with_storage (s : StorageService) (w : World) : World :=
  mkWorld s (attempts_made w) (clock_reads w) (requests_made w) (trace w).

(** [datetime.now()] *)
Definition now (env : Env) (w : World) : datetime * World :=
  (clock env (clock_reads w),
   mkWorld (storage w) (attempts_made w) (S (clock_reads w)) (requests_made w)
           (trace w)).

(** [await asyncio.sleep(seconds)] *)
Definition sleep (seconds : Z) (w : World) : World := emit (EvSleep seconds) w.

(** ** src/services/telegram_services.py

    One attempt is the block [async with self.get_bot() as bot: ...]: it
    either completes or raises, whether the connection or the sending
    failed; the world decides. *)

Module Telegram.

Definition DEFAULT_MAX_RETRIES : nat := 3.

Definition attempt_delivery (env : Env) (news_item : NewsItem) (w : World)
  : bool * World :=
  (attempt_succeeds env (attempts_made w),
   emit (EvAttempt (link news_item) (has_image news_item))
        (mkWorld (storage w) (S (attempts_made w)) (clock_reads w)
                 (requests_made w) (trace w))).

Definition wait_time (attempt : nat) : Z := Z.min (2 ^ Z.of_nat attempt * 5) 60.

(** [for attempt in range(self.max_retries)], from [attempt] on, with
  [remaining] rounds to go.  [None] is the value of a call that reaches
  the end of the loop without a [return]. *)
Fixpoint send_from (env : Env) (max_retries : nat) (remaining attempt : nat)
  (news_item : NewsItem) (w : World) : option bool * World :=
  match remaining with
  | O => (None, w)
  | S k =>
      let '(ok, w1) := attempt_delivery env news_item w in
      if ok then (Some true, w1)
      else if Z.of_nat attempt =? Z.of_nat max_retries - 1 then (Some false, w1)
      else send_from env max_retries k (S attempt) news_item
                     (sleep (wait_time attempt) w1)
  end.

Definition send_notification (env : Env) (max_retries : nat)
  (news_item : NewsItem) (w : World) : option bool * World :=
  send_from env max_retries max_retries 0 news_item w.

(** [if success]: truthiness of what [send_notification] gave. *)
Definition truthy (r : option bool) : bool :=
  match r with Some true => true | _ => false end.

End Telegram.

(** ** src/services/news_services.py *)

Module News.

(** [sorted]: stable, by [__lt__] alone. *)
Fixpoint insert_sorted (x : NewsItem) (l : list NewsItem) : list NewsItem :=
  match l with
  | [] => [x]
  | y :: ys => if Models.__lt__ y x then y :: insert_sorted x ys else x :: y :: ys
  end.

Fixpoint sorted (l : list NewsItem) : list NewsItem :=
  match l with
  | [] => []
  | x :: xs => insert_sorted x (sorted xs)
  end.

(** [get_news]: a status other than 200 and any exception both end in the
  empty list. *)
Definition get_news (env : Env) (w : World) : list NewsItem * World :=
  let w1 := emit EvFetch
              (mkWorld (storage w) (attempts_made w) (clock_reads w)
                       (S (requests_made w)) (trace w)) in
  match site env (requests_made w) with
  | HttpResponse status cards =>
      if status =? 200 then (sorted cards, w1) else ([], w1)
  | HttpFailure _ => ([], w1)
  end.

End News.

(** ** monitor.py *)

Module Monitor.

Record Config : Type := mkConfig { check_interval : Z }.

(** The call [self.storage_service.mark_as_processed(news_item)]: the
    clock is read only when a record is written. *)
Definition mark_as_processed (env : Env) (news_item : NewsItem) (w : World) : World :=
  if Storage.is_processed (storage w) news_item then w
  else
    let '(t, w1) := now env w in
    with_storage (Storage.mark_as_processed news_item t (storage w1)) w1.

(** The call [self.storage_service.cleanup_old_entries()], with the
    default maximal age. *)
Definition cleanup_old_entries (env : Env) (w : World) : World :=
  let '(t, w1) := now env (emit EvCleanup w) in
  with_storage
    (Storage.cleanup_old_entries Storage.DEFAULT_MAX_AGE_DAYS t (storage w1)) w1.

(** The body of the loop over the unprocessed items. *)
Definition process_item (env : Env) (max_retries : nat) (news_item : NewsItem)
  (w : World) : World :=
  let '(success, w1) := Telegram.send_notification env max_retries news_item w in
  if Telegram.truthy success
  then mark_as_processed env news_item (emit (EvMark (link news_item)) w1)
  else w1.

Definition process_items (env : Env) (max_retries : nat)
  (items : list NewsItem) (w : World) : World :=
  fold_left (fun acc news_item => process_item env max_retries news_item acc)
            items w.

Definition _process_news_batch (env : Env) (max_retries : nat)
  (news_items : list NewsItem) (w : World) : World :=
  match news_items with
  | [] => w
  | _ =>
      let unprocessed_news := Storage.get_unprocessed_news (storage w) news_items in
      match unprocessed_news with
      | [] => w
      | _ => cleanup_old_entries env
               (process_items env max_retries unprocessed_news w)
      end
  end.

(** Nothing in the body raises, so the handler that logs and raises again
  has nothing to do. *)
Definition _check_for_updates (env : Env) (max_retries : nat) (w : World)
  : result unit * World :=
  let '(news_items, w1) := News.get_news env w in
  (Return tt, _process_news_batch env max_retries news_items w1).

Definition backoff (consecutive_errors : Z) : Z :=
  Z.min (2 ^ consecutive_errors * 30) 3600.

Record RunState : Type := mkRunState {
  consecutive_errors : Z;
  _last_check : option datetime;
  world : World
  }.

(** One turn of the [while] loop of [run], for any cycle body [check]. *)
Definition run_iteration (env : Env) (cfg : Config)
  (check : World -> result unit * World) (st : RunState) : RunState :=
  match check (world st) with
  | (Return _, w1) =>
      let '(t, w2) := now env w1 in
      mkRunState 0 (Some t) (sleep (check_interval cfg) w2)
  | (Raise _, w1) =>
      let n := consecutive_errors st + 1 in
      mkRunState n (_last_check st) (sleep (backoff n) w1)
  end.

(** [run] for as many turns as the shutdown flag stays unset. *)
Fixpoint run_loop (env : Env) (cfg : Config)
  (check : World -> result unit * World) (turns : nat) (st : RunState) : RunState :=
  match turns with
  | O => st
  | S n => run_loop env cfg check n (run_iteration env cfg check st)
  end.

Definition run (env : Env) (cfg : Config) (turns : nat) (w : World) : RunState :=
  run_loop env cfg (_check_for_updates env Telegram.DEFAULT_MAX_RETRIES) turns
           (mkRunState 0 None w).

End Monitor.


(** ** src/services/telegram_services.py: the connection

    The life of the bot behind one delivery attempt.  An application is
    named by the number of the build that made it.  Whether a build, a
    shutdown or a sending goes through, and what the clock shows, is read
    from a [BotEnv]; the service counts what it has asked for so far. *)

Module Bot.

Record BotEnv : Type := mkBotEnv {
  build_succeeds : nat -> bool;
  shutdown_succeeds : nat -> bool;
  send_succeeds : nat -> bool;
  bot_clock : nat -> datetime
}.

Record TelegramService : Type := mkTelegramService {
  max_retries : nat;
  _application : option nat;
  _bot : option nat;
  _last_initialization : option datetime;
  builds : nat;
  shutdowns : nat;
  sends : nat;
  clock_reads : nat;
  sleeps : list Z
}.

(** The constructor: nothing is connected yet. *)
Definition __init__ (max_retries : nat) : TelegramService :=
  mkTelegramService max_retries None None None 0 0 0 0 [].

Definition set_connection (app bot : option nat) (last : option datetime)
  (s : TelegramService) : TelegramService :=
  mkTelegramService (max_retries s) app bot last
    (builds s) (shutdowns s) (sends s) (clock_reads s) (sleeps s).

(** [datetime.now()] *)
Definition now (env : BotEnv) (s : TelegramService) : datetime * TelegramService :=
  (bot_clock env (clock_reads s),
   mkTelegramService (max_retries s) (_application s) (_bot s)
     (_last_initialization s) (builds s) (shutdowns s) (sends s)
     (S (clock_reads s)) (sleeps s)).

(** [await self._application.shutdown()] *)
Definition shutdown (env : BotEnv) (s : TelegramService)
  : result unit * TelegramService :=
  ((if shutdown_succeeds env (shutdowns s) then Return tt else Raise OtherError),
   mkTelegramService (max_retries s) (_application s) (_bot s)
     (_last_initialization s) (builds s) (S (shutdowns s)) (sends s)
     (clock_reads s) (sleeps s)).

(** With an application: shut it down, and whether that raises or not,
    forget application, bot and time.  Without one: nothing. *)
Definition _cleanup (env : BotEnv) (s : TelegramService) : TelegramService :=
  match _application s with
  | Some _ =>
      let '(_, s1) := shutdown env s in
      set_connection None None None s1
  | None => s
  end.

(** [Application.builder()...build()] *)
Definition build (env : BotEnv) (s : TelegramService)
  : result nat * TelegramService :=
  ((if build_succeeds env (builds s) then Return (builds s) else Raise OtherError),
   mkTelegramService (max_retries s) (_application s) (_bot s)
     (_last_initialization s) (S (builds s)) (shutdowns s) (sends s)
     (clock_reads s) (sleeps s)).

Definition _initialize (env : BotEnv) (s : TelegramService)
  : result unit * TelegramService :=
  let s1 := match _application s with
            | Some _ => _cleanup env s
            | None => s
            end in
  match build env s1 with
  | (Return app, s2) =>
      let s3 := set_connection (Some app) (_bot s2) (_last_initialization s2) s2 in
      let s4 := set_connection (_application s3) (Some app)
                  (_last_initialization s3) s3 in
      let '(t, s5) := now env s4 in
      (Return tt, set_connection (_application s5) (_bot s5) (Some t) s5)
  | (Raise e, s2) => (Raise e, _cleanup env s2)
  end.

Definition TTL_MICROSECONDS : Z := 3600 * 1000000.

(** [(current_time - self._last_initialization).total_seconds() > 3600] *)
Definition older_than_ttl (current_time last : datetime) : bool :=
  TTL_MICROSECONDS <? Datetime.to_micros current_time - Datetime.to_micros last.

Definition needs_initialization (current_time : datetime) (s : TelegramService)
  : bool :=
  match _bot s with
  | None => true
  | Some _ =>
      match _last_initialization s with
      | None => true
      | Some last => older_than_ttl current_time last
      end
  end.

Definition _ensure_initialized (env : BotEnv) (s : TelegramService)
  : result unit * TelegramService :=
  let '(current_time, s1) := now env s in
  if needs_initialization current_time s1 then _initialize env s1
  else (Return tt, s1).

(** [bot.send_photo] or [bot.send_message] *)
Definition send (env : BotEnv) (s : TelegramService)
  : result unit * TelegramService :=
  ((if send_succeeds env (sends s) then Return tt else Raise OtherError),
   mkTelegramService (max_retries s) (_application s) (_bot s)
     (_last_initialization s) (builds s) (shutdowns s) (S (sends s))
     (clock_reads s) (sleeps s)).

(** [async with self.get_bot() as bot: ...] around one sending: an
    exception from the initialisation or from the sending is met by
    [_cleanup] and raised again. *)
Definition get_bot_and_send (env : BotEnv) (s : TelegramService)
  : result unit * TelegramService :=
  match _ensure_initialized env s with
  | (Raise e, s1) => (Raise e, _cleanup env s1)
  | (Return _, s1) =>
      match send env s1 with
      | (Raise e, s2) => (Raise e, _cleanup env s2)
      | (Return _, s2) => (Return tt, s2)
      end
  end.

Definition sleep (seconds : Z) (s : TelegramService) : TelegramService :=
  mkTelegramService (max_retries s) (_application s) (_bot s)
    (_last_initialization s) (builds s) (shutdowns s) (sends s)
    (clock_reads s) (sleeps s ++ [seconds]).

(** The loop of [send_notification], from [attempt] on. *)
Fixpoint send_from (env : BotEnv) (remaining attempt : nat) (s : TelegramService)
  : option bool * TelegramService :=
  match remaining with
  | O => (None, s)
  | S k =>
      match get_bot_and_send env s with
      | (Return _, s1) => (Some true, s1)
      | (Raise _, s1) =>
          if Z.of_nat attempt =? Z.of_nat (max_retries s1) - 1
          then (Some false, s1)
          else send_from env k (S attempt) (sleep (Telegram.wait_time attempt) s1)
      end
  end.

Definition send_notification (env : BotEnv) (s : TelegramService)
  : option bool * TelegramService :=
  send_from env (max_retries s) 0 s.

End Bot.
(** ** Sample data *)

Module Sample.

Local Open Scope string_scope.

Definition dated : NewsItem :=
  mkNewsItem "Line-up" "25 oktober 2024" "https://www.rockwerchter.be/en/news/a"
             None (Some (mkDatetime 2024 10 25 0)).

Definition dated_later : NewsItem :=
  mkNewsItem "Tickets" "2024-10-27" "https://www.rockwerchter.be/en/news/c"
             (Some "https://www.rockwerchter.be/img/c.jpg")
             (Some (mkDatetime 2024 10 27 0)).

Definition undated : NewsItem :=
  mkNewsItem "Soon" "soon" "https://www.rockwerchter.be/en/news/b" None None.

(** 1 November 2024, midnight. *)
Definition now : datetime := mkDatetime 2024 11 1 0.

(** 1 October 2024, 23:00: thirty days and one hour before [now]. *)
Definition thirty_days_one_hour_ago : datetime :=
  mkDatetime 2024 10 1 (23 * 3600 * 1000000).

(** 1 September 2024, noon. *)
Definition two_months_ago : datetime := mkDatetime 2024 9 1 (12 * 3600 * 1000000).

(** 25 October 2024, 08:30. *)
Definition last_week : datetime := mkDatetime 2024 10 25 (8 * 3600 * 1000000 + 1800 * 1000000).

Definition edge_link : string := "https://www.rockwerchter.be/en/news/edge".
Definition old_link : string := "https://www.rockwerchter.be/en/news/old".
Definition recent_link : string := "https://www.rockwerchter.be/en/news/recent".
Definition bad_link : string := "https://www.rockwerchter.be/en/news/bad".

Definition rec_edge : ProcessedRecord :=
  mkProcessedRecord "Edge" "01 October 2024" edge_link None
                    (IsoText thirty_days_one_hour_ago).

Definition rec_old : ProcessedRecord :=
  mkProcessedRecord "Old" "30 August 2024" old_link None (IsoText two_months_ago).

Definition rec_recent : ProcessedRecord :=
  mkProcessedRecord "Recent" "25 October 2024" recent_link None (IsoText last_week).

(** A record whose [processed_at] is not an ISO-8601 time. *)
Definition rec_bad : ProcessedRecord :=
  mkProcessedRecord "Bad" "Fecha no disponible" bad_link None (BadValue ValueError).

Definition store_of (records : list (string * ProcessedRecord)) : StorageService :=
  Storage.__init__ (Json (list_to_map records)) true.

Definition store_empty : StorageService := Storage.__init__ Missing true.

Definition store_edge : StorageService := store_of [(edge_link, rec_edge)].

Definition store_mixed : StorageService :=
  store_of [(old_link, rec_old); (recent_link, rec_recent); (edge_link, rec_edge)].

Definition store_with_bad : StorageService :=
  store_of [(old_link, rec_old); (bad_link, rec_bad)].

End Sample.

Module SampleWorld.

(** The messaging client fails twice, then works. *)
Definition env_third_time_lucky : Env :=
  mkEnv (fun n => Nat.leb 2 n) (fun _ => Sample.now)
        (fun _ => HttpResponse 200 [Sample.dated]).

(** The messaging client is down. *)
Definition env_telegram_down : Env :=
  mkEnv (fun _ => false) (fun _ => Sample.now)
        (fun _ => HttpResponse 200 [Sample.dated]).

Definition world_of (s : StorageService) : World := mkWorld s 0 0 0 [].

Definition world_empty : World := world_of Sample.store_empty.

End SampleWorld.

Module SampleRun.

(** The site cannot be reached. *)
Definition env_site_down : Env :=
  mkEnv (fun _ => true) (fun _ => Sample.now) (fun _ => HttpFailure OtherError).

(** The site answers with a page without news. *)
Definition env_no_news : Env :=
  mkEnv (fun _ => true) (fun _ => Sample.now) (fun _ => HttpResponse 200 []).

(** The site answers with one item, the messaging client works. *)
Definition env_one_item : Env :=
  mkEnv (fun _ => true) (fun _ => Sample.now)
        (fun _ => HttpResponse 200 [Sample.dated]).

(** The site answers with three items, out of order. *)
Definition env_three_items : Env :=
  mkEnv (fun _ => true) (fun _ => Sample.now)
        (fun _ => HttpResponse 200 [Sample.undated; Sample.dated_later; Sample.dated]).


(** The same card twice on the page. *)
Definition dated_again : NewsItem :=
  mkNewsItem "Line-up (featured)" "25 oktober 2024" (link Sample.dated)
             None (Some (mkDatetime 2024 10 25 0)).

Definition cfg : Monitor.Config := Monitor.mkConfig 600.

(** A cycle body that fails. *)
Definition failing_check (w : World) : result unit * World := (Raise OtherError, w).

(** A store that has [Sample.dated] already. *)
Definition store_has_dated : StorageService :=
  Storage.mark_as_processed Sample.dated Sample.last_week Sample.store_empty.

Definition world_has_dated : World := SampleWorld.world_of store_has_dated.

End SampleRun.

Module SampleBot.

(** Builds work; the second sending fails; the clock shows 08:30, 08:30,
    then noon of the same day. *)
Definition env : Bot.BotEnv :=
  Bot.mkBotEnv (fun _ => true) (fun _ => false)
    (fun n => negb (Nat.eqb n 1))
    (fun n => if Nat.ltb n 2 then Sample.last_week
              else mkDatetime 2024 10 25 (12 * 3600 * 1000000)).

(** Nothing works. *)
Definition env_down : Bot.BotEnv :=
  Bot.mkBotEnv (fun _ => false) (fun _ => false) (fun _ => false)
               (fun _ => Sample.now).

End SampleBot.

(** ** Notions used to state the properties *)

(** The dictionary and the set of links hold the same links. *)
Definition consistent (s : StorageService) : Prop :=
  dom (_processed_news s) = _processed_links s.

(** The age of every stored record can be computed. *)
Definition ages_computable (s : StorageService) : Prop :=
  forall l r, _processed_news s !! l = Some r ->
              exists t, r_processed_at r = IsoText t.

(** The record is one that [cleanup_old_entries] selects: its age in whole
    days exceeds [max_age_days]. *)
Definition expired (max_age_days : Z) (current_time : datetime)
  (r : ProcessedRecord) : bool :=
  match Storage.age_days current_time r with
  | Return age => max_age_days <? age
  | Raise _ => false
  end.

Definition has_iso_time (r : ProcessedRecord) : bool :=
  match r_processed_at r with
  | IsoText _ => true
  | BadValue _ => false
  end.

(** What [send_notification] does when the first [failures] attempts fail
    and one more attempt is made: attempts, with a sleep after each failed
    one; [attempt] is the number of the first attempt, counted from 0. *)
Fixpoint retry_trace (x : NewsItem) (attempt failures : nat) : list event :=
  match failures with
  | O => [EvAttempt (link x) (has_image x)]
  | S k =>
      EvAttempt (link x) (has_image x)
        :: EvSleep (Telegram.wait_time attempt)
        :: retry_trace x (S attempt) k
  end.

(** The world after [n] more attempts that left the events [events]. *)
Definition after_attempts (w : World) (n : nat) (events : list event) : World :=
  mkWorld (storage w) (n + attempts_made w) (clock_reads w) (requests_made w)
          (trace w ++ events).

(** The cycle body raises whatever the world is. *)
Definition always_raises (check : World -> result unit * World) : Prop :=
  forall w, exists e w', check w = (Raise e, w').

(** The next request to the site fails: an exception, or a status other
    than 200. *)
Definition fetch_fails (env : Env) (w : World) : Prop :=
  match site env (requests_made w) with
  | HttpFailure _ => True
  | HttpResponse status _ => status <> 200
  end.

(** An event of the delivery of items with the given links. *)
Definition concerns (links : list string) (e : event) : Prop :=
  match e with
  | EvAttempt l _ => l ∈ links
  | EvMark l => l ∈ links
  | EvSleep _ => True
  | EvFetch => False
  | EvCleanup => False
  end.


(** *** The date parser as the specification words it *)

Module ParseSpec.

Local Open Scope string_scope.

(** The fixed dictionary of Dutch month names, applied in its order. *)
Definition translate_months (s : string) : string :=
  Str.replace "december" "december"
    (Str.replace "oktober" "october"
      (Str.replace "augustus" "august"
        (Str.replace "juli" "july"
          (Str.replace "juni" "june"
            (Str.replace "mei" "may"
              (Str.replace "maart" "march"
                (Str.replace "februari" "february"
                  (Str.replace "januari" "january" s)))))))).

(** Lower case without the white space around, months translated, title
    case. *)
Definition normalized (s : string) : string :=
  Str.title (translate_months (Str.strip (Str.lower s))).

(** The pattern matches the whole text and gives a date. *)
Definition exact_match (clean pattern : string) : option datetime :=
  match Strptime.strptime clean pattern with
  | Return t => Some t
  | Raise _ => None
  end.

Definition or_else (first : option datetime) (next : option datetime)
  : option datetime :=
  match first with
  | Some t => Some t
  | None => next
  end.

(** Day month-word year, month-word day year, ISO, day-month-year with
    dashes, day/month/year with slashes: the first that matches. *)
Definition first_exact_match (clean : string) : option datetime :=
  or_else (exact_match clean "%d %B %Y")
    (or_else (exact_match clean "%B %d %Y")
      (or_else (exact_match clean "%Y-%m-%d")
        (or_else (exact_match clean "%d-%m-%Y")
          (exact_match clean "%d/%m/%Y")))).

Definition parse (s : string) : option datetime :=
  match s with
  | EmptyString => None
  | _ => first_exact_match (normalized s)
  end.

End ParseSpec.

(** ** Notions used to state further properties *)

(** The operations that change a store. *)
Inductive store_op : Type :=
| OpMark (x : NewsItem) (t : datetime)
| OpCleanup (max_age_days : Z) (t : datetime).

Definition apply_op (s : StorageService) (op : store_op) : StorageService :=
  match op with
  | OpMark x t => Storage.mark_as_processed x t s
  | OpCleanup m t => Storage.cleanup_old_entries m t s
  end.

Definition apply_ops (ops : list store_op) (s : StorageService) : StorageService :=
  fold_left apply_op ops s.

(** What a new start would read from the file is what is in memory. *)
Definition restorable (s : StorageService) : Prop :=
  match file s with
  | Json content => content = _processed_news s
  | Missing => _processed_news s = ∅
  | Unreadable => _processed_news s = ∅
  end.

(** Neither item is less than the other. *)
Definition same_rank (a b : NewsItem) : bool :=
  negb (Models.__lt__ a b) && negb (Models.__lt__ b a).

(** The seconds slept in a run of events. *)
Definition total_sleep (evs : list event) : Z :=
  fold_right (fun e acc => match e with EvSleep d => d + acc | _ => acc end) 0 evs.

(** The delivery attempts in a run of events. *)
Definition attempts_in (evs : list event) : nat :=
  length (List.filter (fun e => match e with EvAttempt _ _ => true | _ => false end)
                      evs).

(** The events of a delivery that goes through at once and is recorded. *)
Definition delivered_at_once (x : NewsItem) : list event :=
  [EvAttempt (link x) (has_image x); EvMark (link x)].

(** No application, no bot, no time of initialisation. *)
Definition torn_down (s : Bot.TelegramService) : Prop :=
  Bot._application s = None /\ Bot._bot s = None
  /\ Bot._last_initialization s = None.

(** An application, its bot, and the time at which they were made. *)
Definition ready (s : Bot.TelegramService) (app : nat) (t : datetime) : Prop :=
  Bot._application s = Some app /\ Bot._bot s = Some app
  /\ Bot._last_initialization s = Some t.

Definition all_or_nothing (s : Bot.TelegramService) : Prop :=
  torn_down s \/ exists app t, ready s app t.

(** What can be asked of the service. *)
Inductive bot_op : Type :=
| BotSendNotification
| BotAttempt
| BotCleanup.

Definition apply_bot_op (env : Bot.BotEnv) (s : Bot.TelegramService) (op : bot_op)
  : Bot.TelegramService :=
  match op with
  | BotSendNotification => snd (Bot.send_notification env s)
  | BotAttempt => snd (Bot.get_bot_and_send env s)
  | BotCleanup => Bot._cleanup env s
  end.

(** *** Notions for the round trip of a date through its text *)

Definition all_digits (s : string) : bool :=
  forallb Str.is_digit (list_ascii_of_string s).

Definition no_digit (s : string) : bool :=
  forallb (fun c => negb (Str.is_digit c)) (list_ascii_of_string s).

(** The text of the year has four digits, which read as the year. *)
Definition year_text_ok (y : Z) : bool :=
  match pretty y with
  | String a (String b (String c (String e EmptyString))) =>
      Str.is_digit a && Str.is_digit b && Str.is_digit c && Str.is_digit e
      && (Strptime.int_of [a; b; c; e] =? y)
  | _ => false
  end.

Definition years_1000_9999 : list Z :=
  map (fun n => 1000 + Z.of_nat n) (seq 0 (Z.to_nat 9000)).

(** The normalisation without the stripping. *)
Definition normalize_inner (p : string) : string :=
  Str.title
    (fold_left (fun acc '(dutch, english) => Str.replace dutch english acc)
               DateParser.MONTH_REPLACEMENTS (Str.lower p)).

Definition MONTHS : list Z := [1; 2; 3; 4; 5; 6; 7; 8; 9; 10; 11; 12].

Definition DAYS : list Z :=
  [1; 2; 3; 4; 5; 6; 7; 8; 9; 10; 11; 12; 13; 14; 15; 16; 17; 18; 19; 20;
   21; 22; 23; 24; 25; 26; 27; 28; 29; 30; 31].

Definition day_text (d : Z) : string :=
  (if d <? 10 then "0" else "") +:+ pretty d.

Definition month_name (m : Z) : string :=
  nth (Z.to_nat (m - 1)) Datetime.MONTH_NAMES "".

(** What [format_date] writes before the year. *)
Definition date_prefix (m d : Z) : string :=
  day_text d +:+ " " +:+ month_name m +:+ " ".

(** The normalisation leaves the text before the year as it is, and that
    text starts with a digit. *)
Definition prefix_normal (md : Z * Z) : bool :=
  let p := date_prefix (fst md) (snd md) in
  String.eqb (normalize_inner p) p
  && match p with
     | String c _ => Str.is_digit c
     | EmptyString => false
     end.

(** * Properties *)

(** ** Comparison of datetimes *)

Ltac ltb_to_prop :=
  unfold Datetime.ltb in *;
  repeat match goal with
         | t : datetime |- _ => destruct t
         end;
  cbn [year month day microsecond_of_day] in *;
  rewrite ?orb_true_iff, ?andb_true_iff, ?orb_false_iff, ?andb_false_iff,
    ?Z.ltb_lt, ?Z.eqb_eq, ?Z.ltb_ge, ?Z.eqb_neq in *.

Lemma datetime_ltb_irrefl (a : datetime) : Datetime.ltb a a = false.
Proof.
  destruct (Datetime.ltb a a) eqn:E; [|reflexivity].
  exfalso. ltb_to_prop. lia.
Qed.

Lemma datetime_ltb_trans (a b c : datetime) :
  Datetime.ltb a b = true -> Datetime.ltb b c = true -> Datetime.ltb a c = true.
Proof. intros Hab Hbc. ltb_to_prop. lia. Qed.

Lemma datetime_ltb_asym (a b : datetime) :
  Datetime.ltb a b = true -> Datetime.ltb b a = false.
Proof.
  intros Hab. destruct (Datetime.ltb b a) eqn:E; [|reflexivity].
  pose proof (datetime_ltb_trans _ _ _ Hab E) as H.
  rewrite datetime_ltb_irrefl in H. discriminate.
Qed.

(** Two datetimes neither of which is before the other are the same. *)
Lemma datetime_ltb_total (a b : datetime) :
  Datetime.ltb a b = false -> Datetime.ltb b a = false -> a = b.
Proof.
  intros Hab Hba. ltb_to_prop.
  assert (year0 = year1 /\ month0 = month1 /\ day0 = day1
          /\ microsecond_of_day0 = microsecond_of_day1) as (-> & -> & -> & ->)
    by lia.
  reflexivity.
Qed.

(** Incomparable with an incomparable datetime is incomparable. *)
Lemma datetime_ltb_negtrans (a b c : datetime) :
  Datetime.ltb a b = false -> Datetime.ltb b c = false -> Datetime.ltb a c = false.
Proof.
  intros Hab Hbc. destruct (Datetime.ltb a c) eqn:E; [|reflexivity].
  exfalso. ltb_to_prop. lia.
Qed.

(** ** Items: equality and order *)

Lemma sample_items_constructed :
  Models.new "Line-up" "25 oktober 2024" "https://www.rockwerchter.be/en/news/a" None
    = Return Sample.dated
  /\ Models.new "Soon" "soon" "https://www.rockwerchter.be/en/news/b" None
    = Return Sample.undated.
Proof. split; vm_compute; reflexivity. Qed.

Lemma lt_unparsed_left (a b : NewsItem) :
  _parsed_date a = None -> Models.__lt__ a b = false.
Proof. intros H. unfold Models.__lt__. rewrite H. reflexivity. Qed.

Lemma lt_parsed_unparsed (a b : NewsItem) (t : datetime) :
  _parsed_date a = Some t -> _parsed_date b = None -> Models.__lt__ a b = true.
Proof. intros Ha Hb. unfold Models.__lt__. rewrite Ha, Hb. reflexivity. Qed.

Lemma lt_irrefl (a : NewsItem) : Models.__lt__ a a = false.
Proof.
  unfold Models.__lt__. destruct (_parsed_date a); [apply datetime_ltb_irrefl|reflexivity].
Qed.

Lemma lt_trans (a b c : NewsItem) :
  Models.__lt__ a b = true -> Models.__lt__ b c = true -> Models.__lt__ a c = true.
Proof.
  unfold Models.__lt__.
  destruct (_parsed_date a), (_parsed_date b), (_parsed_date c);
    try discriminate; try reflexivity.
  apply datetime_ltb_trans.
Qed.

Lemma lt_negtrans (a b c : NewsItem) :
  Models.__lt__ a b = false -> Models.__lt__ b c = false -> Models.__lt__ a c = false.
Proof.
  unfold Models.__lt__.
  destruct (_parsed_date a), (_parsed_date b), (_parsed_date c);
    try discriminate; try reflexivity.
  apply datetime_ltb_negtrans.
Qed.

(** C9, as stated, fails: an item with a parsed date is less than an item
    without one, although the two do not both have a parsed date. *)
Lemma lt_not_only_between_parsed :
  Models.__lt__ Sample.dated Sample.undated = true
  /\ ~ (Models.__lt__ Sample.dated Sample.undated = true
        <-> exists ta tb, _parsed_date Sample.dated = Some ta
                          /\ _parsed_date Sample.undated = Some tb
                          /\ Datetime.ltb ta tb = true).
Proof.
  split; [reflexivity|].
  intros [H _]. destruct (H eq_refl) as (ta & tb & _ & Hb & _).
  discriminate Hb.
Qed.

(** C9, amended: items are equal exactly when their links are equal;
    [a < b] holds exactly when [a] has a parsed date and [b] either has none
    or has a strictly later one; an item without a parsed date is less than
    no item and every item with a parsed date is less than it; two items
    without a parsed date are not ordered either way; [<] is irreflexive and
    transitive, and so is being unordered, which makes [<] a strict weak
    order: a total order up to that equivalence. *)
Theorem item_comparison (a b c : NewsItem) :
  (Models.__eq__ a b = true <-> link a = link b)
  /\ (Models.__lt__ a b = true <->
      exists ta, _parsed_date a = Some ta
                 /\ (_parsed_date b = None
                     \/ exists tb, _parsed_date b = Some tb
                                   /\ Datetime.ltb ta tb = true))
  /\ (_parsed_date a = None -> Models.__lt__ a b = false)
  /\ (_parsed_date a = None -> forall ta, _parsed_date b = Some ta ->
      Models.__lt__ b a = true)
  /\ (_parsed_date a = None -> _parsed_date b = None ->
      Models.__lt__ a b = false /\ Models.__lt__ b a = false)
  /\ Models.__lt__ a a = false
  /\ (Models.__lt__ a b = true -> Models.__lt__ b c = true -> Models.__lt__ a c = true)
  /\ (Models.__lt__ a b = false -> Models.__lt__ b c = false -> Models.__lt__ a c = false).
Proof.
  repeat split.
  - unfold Models.__eq__. apply String.eqb_eq.
  - unfold Models.__eq__. apply String.eqb_eq.
  - unfold Models.__lt__. destruct (_parsed_date a) as [ta|]; [|discriminate].
    intros H. exists ta. split; [reflexivity|].
    destruct (_parsed_date b) as [tb|]; [right; eauto | left; reflexivity].
  - intros (ta & Ha & [Hb | (tb & Hb & Hlt)]); unfold Models.__lt__; rewrite Ha, Hb; auto.
  - apply lt_unparsed_left.
  - intros Ha ta Hb. eapply lt_parsed_unparsed; eauto.
  - apply lt_unparsed_left; assumption.
  - apply lt_unparsed_left; assumption.
  - apply lt_irrefl.
  - apply lt_trans.
  - apply lt_negtrans.
Qed.

Lemma item_comparison_witness :
  Models.__lt__ Sample.undated Sample.dated = false
  /\ Models.__lt__ Sample.dated Sample.undated = true
  /\ Models.__lt__ Sample.dated Sample.dated_later = true.
Proof.
  pose proof (item_comparison Sample.undated Sample.dated Sample.dated_later)
    as (_ & _ & Hnone & Hafter & _ & _ & _ & _).
  pose proof (item_comparison Sample.dated Sample.dated_later Sample.undated)
    as (_ & Hlt & _).
  split; [apply Hnone; reflexivity|].
  split; [eapply Hafter; reflexivity|].
  apply Hlt. eexists. split; [reflexivity|]. right. eexists. split; reflexivity.
Defined.

(** ** The store: marking *)

Lemma init_consistent (f : file_state) (can_write : bool) :
  consistent (Storage.__init__ f can_write).
Proof.
  unfold consistent, Storage.__init__, Storage._load_processed_news,
    Storage._ensure_storage_exists, Storage._save_processed_news.
  destruct f as [| |content]; cbn; try destruct can_write; cbn;
    try reflexivity; apply dom_empty_L.
Qed.

Lemma is_processed_true (s : StorageService) (x : NewsItem) :
  Storage.is_processed s x = true <-> link x ∈ _processed_links s.
Proof. unfold Storage.is_processed. apply bool_decide_eq_true. Qed.

Lemma is_processed_false (s : StorageService) (x : NewsItem) :
  Storage.is_processed s x = false <-> link x ∉ _processed_links s.
Proof. unfold Storage.is_processed. apply bool_decide_eq_false. Qed.

Lemma mark_as_processed_noop (x : NewsItem) (t : datetime) (s : StorageService) :
  Storage.is_processed s x = true -> Storage.mark_as_processed x t s = s.
Proof. intros H. unfold Storage.mark_as_processed. rewrite H. reflexivity. Qed.

Lemma mark_as_processed_fresh (x : NewsItem) (t : datetime) (s : StorageService) :
  Storage.is_processed s x = false ->
  Storage.mark_as_processed x t s =
    mkStorageService
      (<[link x := Storage.record_of x t]> (_processed_news s))
      ({[link x]} ∪ _processed_links s)
      (if writable s
       then Json (<[link x := Storage.record_of x t]> (_processed_news s))
       else file s)
      (writable s) (S (saves s)).
Proof. intros H. unfold Storage.mark_as_processed. rewrite H. reflexivity. Qed.

Lemma mark_as_processed_is_processed (x : NewsItem) (t : datetime)
  (s : StorageService) :
  Storage.is_processed (Storage.mark_as_processed x t s) x = true.
Proof.
  destruct (Storage.is_processed s x) eqn:E.
  - rewrite mark_as_processed_noop; assumption.
  - rewrite mark_as_processed_fresh by assumption.
    apply is_processed_true. cbn. set_solver.
Qed.

Lemma mark_as_processed_consistent (x : NewsItem) (t : datetime)
  (s : StorageService) :
  consistent s -> consistent (Storage.mark_as_processed x t s).
Proof.
  unfold consistent. intros H.
  destruct (Storage.is_processed s x) eqn:E.
  - rewrite mark_as_processed_noop; assumption.
  - rewrite mark_as_processed_fresh by assumption. cbn.
    rewrite dom_insert_L, H. reflexivity.
Qed.

(** C3: marking an item whose link is in the store changes nothing: same
    records, same index, same file, no save.  Marking an item whose link is
    not in the store puts one record under its link, with [processed_at]
    the current time, leaves the records of other links alone, adds the
    link to the index, and saves once, so that the file holds the new
    dictionary when it can be written; with a consistent store the
    dictionary grows by exactly one record.  A second call on the same link
    changes nothing, and the record keeps the first time. *)
Theorem mark_as_processed_idempotent (x : NewsItem) (t1 t2 : datetime)
  (s : StorageService) :
  (Storage.is_processed s x = true -> Storage.mark_as_processed x t2 s = s)
  /\ (Storage.is_processed s x = false ->
      let s1 := Storage.mark_as_processed x t1 s in
      _processed_news s1 !! link x = Some (Storage.record_of x t1)
      /\ r_processed_at (Storage.record_of x t1) = IsoText t1
      /\ (forall l, l ≠ link x -> _processed_news s1 !! l = _processed_news s !! l)
      /\ _processed_links s1 = {[link x]} ∪ _processed_links s
      /\ saves s1 = S (saves s)
      /\ (writable s = true -> file s1 = Json (_processed_news s1))
      /\ (consistent s ->
          size (_processed_news s1) = S (size (_processed_news s))
          /\ consistent s1)
      /\ Storage.mark_as_processed x t2 s1 = s1
      /\ _processed_news (Storage.mark_as_processed x t2 s1) !! link x
         = Some (Storage.record_of x t1)).
Proof.
  split; [apply mark_as_processed_noop|].
  intros Hnew s1.
  assert (Storage.mark_as_processed x t2 s1 = s1) as Hagain.
  { apply mark_as_processed_noop, mark_as_processed_is_processed. }
  assert (_processed_news s1 !! link x = Some (Storage.record_of x t1)) as Hrec.
  { subst s1. rewrite mark_as_processed_fresh by assumption. cbn.
    apply lookup_insert_eq. }
  repeat split.
  - exact Hrec.
  - intros l Hl. subst s1. rewrite mark_as_processed_fresh by assumption. cbn.
    apply lookup_insert_ne. congruence.
  - subst s1. rewrite mark_as_processed_fresh by assumption. reflexivity.
  - subst s1. rewrite mark_as_processed_fresh by assumption. reflexivity.
  - intros Hw. subst s1. rewrite mark_as_processed_fresh by assumption. cbn.
    rewrite Hw. reflexivity.
  - subst s1. rewrite mark_as_processed_fresh by assumption. cbn.
    apply map_size_insert_None. apply not_elem_of_dom. rewrite H.
    apply is_processed_false. assumption.
  - apply mark_as_processed_consistent. assumption.
  - exact Hagain.
  - rewrite Hagain. exact Hrec.
Qed.

(** ** The store: pruning *)

Lemma expired_whole_days (max_age_days : Z) (now : datetime)
  (r : ProcessedRecord) (t : datetime) :
  r_processed_at r = IsoText t ->
  (expired max_age_days now r = true <->
   (max_age_days + 1) * Datetime.US_PER_DAY
     <= Datetime.to_micros now - Datetime.to_micros t).
Proof.
  intros Ht. unfold expired, Storage.age_days, Datetime.sub_days. rewrite Ht.
  rewrite Z.ltb_lt.
  assert (0 < Datetime.US_PER_DAY) as Hpos by (unfold Datetime.US_PER_DAY; lia).
  set (d := Datetime.to_micros now - Datetime.to_micros t) in *.
  pose proof (Z.mul_div_le d _ Hpos) as Hlo.
  pose proof (Z.mul_succ_div_gt d _ Hpos) as Hhi.
  split; intros H; nia.
Qed.

(** The first loop stops with an exception as soon as one age cannot be
    computed. *)
Lemma entries_to_remove_raises now max items l r e :
  (l, r) ∈ items -> Storage.age_days now r = Raise e ->
  exists e', Storage.entries_to_remove now max items = Raise e'.
Proof.
  induction items as [|[l0 r0] items IH]; intros Hin He.
  - inversion Hin.
  - cbn. apply elem_of_cons in Hin as [Heq | Hin].
    + inversion Heq; subst. rewrite He. eauto.
    + destruct (Storage.age_days now r0); [|eauto].
      destruct (IH Hin He) as [e' ->]. eauto.
Qed.

Lemma entries_to_remove_selects now max items :
  (forall l r, (l, r) ∈ items -> exists t, r_processed_at r = IsoText t) ->
  exists ls,
    Storage.entries_to_remove now max items = Return ls
    /\ (forall l, l ∈ ls <-> exists r, (l, r) ∈ items /\ expired max now r = true)
    /\ (NoDup items.*1 -> NoDup ls).
Proof.
  induction items as [|[l0 r0] items IH]; intros Hiso.
  - exists []. split; [reflexivity|]. split; [|constructor].
    intros l. split; [intros H; inversion H|].
    intros (r & H & _). inversion H.
  - destruct IH as (ls & Hls & Hmem & Hnd).
    { intros l r Hin. apply (Hiso l r). apply elem_of_cons. right. exact Hin. }
    destruct (Hiso l0 r0) as [t0 Ht0]; [apply elem_of_cons; left; reflexivity|].
    cbn. rewrite Hls.
    assert (Storage.age_days now r0 = Return (Datetime.sub_days now t0)) as Hage
      by (unfold Storage.age_days; rewrite Ht0; reflexivity).
    rewrite Hage.
    assert (expired max now r0 = (max <? Datetime.sub_days now t0)) as Hexp
      by (unfold expired; rewrite Hage; reflexivity).
    eexists. split; [reflexivity|]. split.
    + intros l. destruct (max <? Datetime.sub_days now t0) eqn:E.
      * rewrite elem_of_cons, Hmem. split.
        -- intros [-> | (r & Hin & Hr)].
           ++ exists r0. split; [apply elem_of_cons; left; reflexivity|].
              rewrite Hexp. reflexivity.
           ++ exists r. split; [apply elem_of_cons; right; exact Hin | exact Hr].
        -- intros (r & Hin & Hr). apply elem_of_cons in Hin as [Heq | Hin].
           ++ inversion Heq. left. reflexivity.
           ++ right. eauto.
      * rewrite Hmem. split.
        -- intros (r & Hin & Hr). exists r.
           split; [apply elem_of_cons; right; exact Hin | exact Hr].
        -- intros (r & Hin & Hr). apply elem_of_cons in Hin as [Heq | Hin].
           ++ inversion Heq; subst. rewrite Hexp in Hr. discriminate.
           ++ eauto.
    + intros Hnodup. cbn in Hnodup. apply NoDup_cons in Hnodup as [Hnotin Hnodup].
      destruct (max <? Datetime.sub_days now t0); [|auto].
      apply NoDup_cons. split; [|auto].
      intros Hin. apply Hmem in Hin as (r & Hin & _).
      apply Hnotin. apply list_elem_of_fmap. exists (l0, r). split; [reflexivity|exact Hin].
Qed.

(** The second loop, on links that are all in the dictionary and in the
    set: it removes them from both and touches nothing else. *)
Lemma remove_entries_removes ls : forall s,
  NoDup ls ->
  (forall l, l ∈ ls -> is_Some (_processed_news s !! l) /\ l ∈ _processed_links s) ->
  exists s',
    Storage.remove_entries ls s = (Return tt, s')
    /\ (forall k, _processed_news s' !! k
                  = if decide (k ∈ ls) then None else _processed_news s !! k)
    /\ (forall k, k ∈ _processed_links s' <-> k ∈ _processed_links s /\ k ∉ ls)
    /\ file s' = file s /\ writable s' = writable s /\ saves s' = saves s.
Proof.
  induction ls as [|l ls IH]; intros s Hnd Hin.
  - exists s. split; [reflexivity|]. split.
    { intros k. destruct (decide (k ∈ [])) as [H|_]; [inversion H|reflexivity]. }
    split; [|auto]. intros k. split; [intros H; split; [exact H|]|tauto].
    intros H'. inversion H'.
  - apply NoDup_cons in Hnd as [Hnotin Hnd].
    destruct (Hin l) as [[r Hr] Hl]; [apply elem_of_cons; left; reflexivity|].
    cbn [Storage.remove_entries]. rewrite Hr. cbn.
    rewrite bool_decide_eq_true_2 by exact Hl.
    match goal with
    | |- context [Storage.remove_entries ls ?s2] =>
        destruct (IH s2 Hnd) as (s' & Hrun & Hnews & Hlinks & Hf & Hw & Hs)
    end.
    { intros l' Hl'. destruct (Hin l') as [Hsome Hmem];
        [apply elem_of_cons; right; exact Hl'|].
      assert (l ≠ l') as Hne by (intros ->; contradiction).
      cbn. rewrite lookup_delete_ne by exact Hne. split; [exact Hsome|].
      set_solver. }
    exists s'. split; [exact Hrun|].
    cbn in Hnews, Hlinks, Hf, Hw, Hs. split.
    { intros k. rewrite Hnews.
      destruct (decide (k ∈ ls)) as [Hk|Hk].
      - rewrite decide_True by (apply elem_of_cons; right; exact Hk). reflexivity.
      - destruct (decide (k = l)) as [->|Hne].
        + rewrite decide_True by (apply elem_of_cons; left; reflexivity).
          apply lookup_delete_eq.
        + rewrite decide_False by (rewrite elem_of_cons; tauto).
          apply lookup_delete_ne. congruence. }
    split; [|auto].
    intros k. rewrite Hlinks, elem_of_cons. set_solver.
Qed.

Lemma expired_in_list_iff now max (s : StorageService) l :
  (exists r, (l, r) ∈ map_to_list (_processed_news s) /\ expired max now r = true)
  <-> (exists r, _processed_news s !! l = Some r /\ expired max now r = true).
Proof.
  split; intros (r & H & He); exists r; (split; [|exact He]).
  - apply elem_of_map_to_list. exact H.
  - apply elem_of_map_to_list. exact H.
Qed.

(** What [cleanup_old_entries] does to a consistent store all of whose ages
    can be computed. *)
Lemma cleanup_old_entries_spec max now (s : StorageService) :
  consistent s -> ages_computable s ->
  exists ls s1,
    Storage.entries_to_remove now max (map_to_list (_processed_news s)) = Return ls
    /\ (forall l, l ∈ ls <->
                  exists r, _processed_news s !! l = Some r /\ expired max now r = true)
    /\ Storage.remove_entries ls s = (Return tt, s1)
    /\ (forall k, _processed_news s1 !! k
                  = if decide (k ∈ ls) then None else _processed_news s !! k)
    /\ (forall k, k ∈ _processed_links s1 <-> k ∈ _processed_links s /\ k ∉ ls)
    /\ file s1 = file s /\ writable s1 = writable s /\ saves s1 = saves s
    /\ Storage.cleanup_old_entries max now s
       = match ls with [] => s1 | _ => Storage._save_processed_news None s1 end.
Proof.
  intros Hcons Hiso.
  destruct (entries_to_remove_selects now max (map_to_list (_processed_news s)))
    as (ls & Hls & Hmem & Hnd).
  { intros l r Hin. apply elem_of_map_to_list in Hin. eauto. }
  assert (forall l, l ∈ ls <->
            exists r, _processed_news s !! l = Some r /\ expired max now r = true)
    as Hmem'.
  { intros l. rewrite Hmem. apply expired_in_list_iff. }
  destruct (remove_entries_removes ls s) as (s1 & Hrun & Hrest).
  { apply Hnd, NoDup_fst_map_to_list. }
  { intros l Hl. apply Hmem' in Hl as (r & Hr & _). split; [eauto|].
    rewrite <- Hcons. apply elem_of_dom. eauto. }
  exists ls, s1. split; [exact Hls|]. split; [exact Hmem'|].
  split; [exact Hrun|].
  destruct Hrest as (H1 & H2 & H3 & H4 & H5).
  repeat (split; [assumption|]).
  unfold Storage.cleanup_old_entries. rewrite Hls, Hrun. reflexivity.
Qed.

Lemma cleanup_old_entries_nothing_expired max now (s : StorageService) :
  consistent s -> ages_computable s ->
  (forall l r, _processed_news s !! l = Some r -> expired max now r = false) ->
  Storage.cleanup_old_entries max now s = s.
Proof.
  intros Hcons Hiso Hnone.
  destruct (cleanup_old_entries_spec max now s Hcons Hiso)
    as (ls & s1 & _ & Hmem & Hrun & _ & _ & _ & _ & _ & Hclean).
  destruct ls as [|l ls].
  - cbn in Hrun. rewrite Hclean. congruence.
  - exfalso. destruct (proj1 (Hmem l)) as (r & Hr & He);
      [apply elem_of_cons; left; reflexivity|].
    rewrite (Hnone l r Hr) in He. discriminate.
Qed.

Lemma cleanup_old_entries_lookup max now (s : StorageService) :
  consistent s -> ages_computable s ->
  forall l,
    _processed_news (Storage.cleanup_old_entries max now s) !! l
    = match _processed_news s !! l with
      | Some r => if expired max now r then None else Some r
      | None => None
      end.
Proof.
  intros Hcons Hiso l.
  destruct (cleanup_old_entries_spec max now s Hcons Hiso)
    as (ls & s1 & _ & Hmem & _ & Hnews & _ & _ & _ & _ & Hclean).
  assert (_processed_news (Storage.cleanup_old_entries max now s)
          = _processed_news s1) as ->.
  { rewrite Hclean. destruct ls; reflexivity. }
  rewrite Hnews. destruct (decide (l ∈ ls)) as [Hl|Hl].
  - apply Hmem in Hl as (r & -> & ->). reflexivity.
  - destruct (_processed_news s !! l) as [r|] eqn:Hr; [|reflexivity].
    destruct (expired max now r) eqn:He; [|reflexivity].
    exfalso. apply Hl, Hmem. eauto.
Qed.

Lemma cleanup_old_entries_consistent max now (s : StorageService) :
  consistent s -> ages_computable s ->
  consistent (Storage.cleanup_old_entries max now s).
Proof.
  intros Hcons Hiso.
  destruct (cleanup_old_entries_spec max now s Hcons Hiso)
    as (ls & s1 & _ & Hmem & _ & Hnews & Hlinks & _ & _ & _ & Hclean).
  assert (consistent s1) as Hs1.
  { unfold consistent. apply set_eq. intros k.
    rewrite elem_of_dom, Hnews, Hlinks, <- Hcons, elem_of_dom.
    destruct (decide (k ∈ ls)) as [Hk|Hk].
    - split; [intros [? H]; discriminate H | tauto].
    - tauto. }
  rewrite Hclean. destruct ls; exact Hs1.
Qed.

(** C7, as stated, fails: a record processed 30 days and one hour before
    now is more than 30 days old, and it stays. *)
Lemma cleanup_keeps_thirty_days_and_an_hour :
  30 * Datetime.US_PER_DAY
    < Datetime.to_micros Sample.now - Datetime.to_micros Sample.thirty_days_one_hour_ago
  /\ _processed_news Sample.store_edge !! Sample.edge_link = Some Sample.rec_edge
  /\ r_processed_at Sample.rec_edge = IsoText Sample.thirty_days_one_hour_ago
  /\ _processed_news
       (Storage.cleanup_old_entries 30 Sample.now Sample.store_edge)
     !! Sample.edge_link = Some Sample.rec_edge.
Proof. vm_compute. repeat split; reflexivity. Qed.

(** C7, amended: on a consistent store in which the age of every record can
    be computed, [cleanup_old_entries] removes exactly the records whose age
    in whole days, [(now - processed_at).days], is greater than
    [max_age_days], that is, the records processed at least
    [max_age_days + 1] full days before now; every other record stays as it
    is, and the index follows the dictionary.  It saves once when a record
    was removed, and otherwise leaves the store as it is, without a save;
    run again at the same time it changes nothing and does not save. *)
Theorem cleanup_old_entries_exact max now (s : StorageService) :
  consistent s -> ages_computable s ->
  let s' := Storage.cleanup_old_entries max now s in
  (forall l, _processed_news s' !! l
             = match _processed_news s !! l with
               | Some r => if expired max now r then None else Some r
               | None => None
               end)
  /\ (forall r t, r_processed_at r = IsoText t ->
        (expired max now r = true <->
         (max + 1) * Datetime.US_PER_DAY
           <= Datetime.to_micros now - Datetime.to_micros t))
  /\ consistent s'
  /\ ((exists l r, _processed_news s !! l = Some r /\ expired max now r = true) ->
      saves s' = S (saves s)
      /\ (writable s = true -> file s' = Json (_processed_news s')))
  /\ ((forall l r, _processed_news s !! l = Some r -> expired max now r = false) ->
      s' = s)
  /\ Storage.cleanup_old_entries max now s' = s'.
Proof.
  intros Hcons Hiso s'.
  pose proof (cleanup_old_entries_lookup max now s Hcons Hiso) as Hlook.
  pose proof (cleanup_old_entries_consistent max now s Hcons Hiso) as Hcons'.
  split; [exact Hlook|].
  split; [intros r t; apply expired_whole_days|].
  split; [exact Hcons'|].
  split; [|split].
  - intros (l & r & Hr & He).
    destruct (cleanup_old_entries_spec max now s Hcons Hiso)
      as (ls & s1 & _ & Hmem & _ & _ & _ & Hf & Hw & Hs & Hclean).
    subst s'. rewrite Hclean. destruct ls as [|l0 ls].
    + exfalso. assert (l ∈ []) as H by (apply Hmem; eauto). inversion H.
    + cbn. rewrite Hs, Hw. split; [reflexivity|]. intros ->. reflexivity.
  - apply cleanup_old_entries_nothing_expired; assumption.
  - apply cleanup_old_entries_nothing_expired.
    + exact Hcons'.
    + intros l r Hr. subst s'. rewrite Hlook in Hr.
      destruct (_processed_news s !! l) as [r0|] eqn:Hr0; [|discriminate].
      destruct (expired max now r0); [discriminate|].
      inversion Hr; subst. eauto.
    + intros l r Hr. subst s'. rewrite Hlook in Hr.
      destruct (_processed_news s !! l) as [r0|] eqn:Hr0; [|discriminate].
      destruct (expired max now r0) eqn:He; [discriminate|].
      inversion Hr; subst. exact He.
Qed.

(** C10: when the age of one stored record cannot be computed,
    [cleanup_old_entries] leaves the store exactly as it was: no record is
    removed, however old, the index is the same, the file is the same and
    nothing is saved.  This holds at every time and for every maximal age,
    so that no pruning happens as long as the record is there. *)
Theorem cleanup_old_entries_atomic_on_error max now (s : StorageService)
  (l : string) (r : ProcessedRecord) (e : exn) :
  _processed_news s !! l = Some r ->
  Storage.age_days now r = Raise e ->
  Storage.cleanup_old_entries max now s = s.
Proof.
  intros Hr He. unfold Storage.cleanup_old_entries.
  destruct (entries_to_remove_raises now max (map_to_list (_processed_news s))
              l r e) as [e' ->]; [|exact He|reflexivity].
  apply elem_of_map_to_list. exact Hr.
Qed.

(** ** The store on sample data *)

Lemma ages_computable_by_check (s : StorageService) :
  map_Forall (fun _ r => has_iso_time r = true) (_processed_news s) ->
  ages_computable s.
Proof.
  intros H l r Hr. specialize (H l r Hr). unfold has_iso_time in H.
  destruct (r_processed_at r) as [t|]; [eauto|discriminate].
Qed.

Lemma store_mixed_ages_computable : ages_computable Sample.store_mixed.
Proof.
  apply ages_computable_by_check. apply (bool_decide_unpack _).
  vm_compute. exact I.
Qed.

Lemma mark_as_processed_idempotent_witness :
  let s1 := Storage.mark_as_processed Sample.dated Sample.last_week
              Sample.store_empty in
  Storage.is_processed Sample.store_empty Sample.dated = false
  /\ Storage.mark_as_processed Sample.dated Sample.now s1 = s1
  /\ _processed_news (Storage.mark_as_processed Sample.dated Sample.now s1)
     !! link Sample.dated
     = Some (Storage.record_of Sample.dated Sample.last_week)
  /\ size (_processed_news s1) = 1%nat.
Proof.
  intros s1.
  assert (Storage.is_processed Sample.store_empty Sample.dated = false) as Hnew
    by (vm_compute; reflexivity).
  destruct (mark_as_processed_idempotent Sample.dated Sample.last_week Sample.now
              Sample.store_empty) as [_ H].
  destruct (H Hnew) as (_ & _ & _ & _ & _ & _ & Hsize & Hagain & Hfirst).
  destruct (Hsize (init_consistent Missing true)) as [Hone _].
  split; [exact Hnew|]. split; [exact Hagain|]. split; [exact Hfirst|exact Hone].
Defined.

Lemma cleanup_old_entries_exact_witness :
  let s' := Storage.cleanup_old_entries 30 Sample.now Sample.store_mixed in
  _processed_news s' !! Sample.old_link = None
  /\ _processed_news s' !! Sample.recent_link = Some Sample.rec_recent
  /\ _processed_news s' !! Sample.edge_link = Some Sample.rec_edge
  /\ saves s' = S (saves Sample.store_mixed)
  /\ Storage.cleanup_old_entries 30 Sample.now s' = s'.
Proof.
  intros s'.
  destruct (cleanup_old_entries_exact 30 Sample.now Sample.store_mixed
              (init_consistent _ true) store_mixed_ages_computable)
    as (Hlook & _ & _ & Hsave & _ & Hagain).
  subst s'.
  split; [rewrite (Hlook Sample.old_link); vm_compute; reflexivity|].
  split; [rewrite (Hlook Sample.recent_link); vm_compute; reflexivity|].
  split; [rewrite (Hlook Sample.edge_link); vm_compute; reflexivity|].
  split; [|exact Hagain].
  apply Hsave. exists Sample.old_link, Sample.rec_old.
  split; vm_compute; reflexivity.
Defined.

Lemma cleanup_old_entries_atomic_on_error_witness :
  _processed_news Sample.store_with_bad !! Sample.old_link = Some Sample.rec_old
  /\ expired 30 Sample.now Sample.rec_old = true
  /\ Storage.cleanup_old_entries 30 Sample.now Sample.store_with_bad
     = Sample.store_with_bad.
Proof.
  split; [vm_compute; reflexivity|].
  split; [vm_compute; reflexivity|].
  apply (cleanup_old_entries_atomic_on_error 30 Sample.now Sample.store_with_bad
           Sample.bad_link Sample.rec_bad ValueError).
  - vm_compute. reflexivity.
  - reflexivity.
Defined.

(** ** Delivery with retries *)

Lemma first_success_or_none (f : nat -> bool) (n : nat) :
  (exists k, (k < n)%nat /\ (forall i, (i < k)%nat -> f i = false) /\ f k = true)
  \/ (forall i, (i < n)%nat -> f i = false).
Proof.
  induction n as [|n [(k & Hk & Hbefore & Hok) | Hnone]].
  - right. intros i Hi. lia.
  - left. exists k. split; [lia|]. split; assumption.
  - destruct (f n) eqn:E.
    + left. exists n. split; [lia|]. split; assumption.
    + right. intros i Hi. destruct (decide (i = n)) as [->|Hne]; [exact E|].
      apply Hnone. lia.
Qed.

Lemma send_from_step env max k attempt x w :
  Telegram.send_from env max (S k) attempt x w
  = if attempt_succeeds env (attempts_made w)
    then (Some true, after_attempts w 1 [EvAttempt (link x) (has_image x)])
    else if Z.of_nat attempt =? Z.of_nat max - 1
         then (Some false, after_attempts w 1 [EvAttempt (link x) (has_image x)])
         else Telegram.send_from env max k (S attempt) x
                (after_attempts w 1 [EvAttempt (link x) (has_image x);
                                     EvSleep (Telegram.wait_time attempt)]).
Proof.
  cbn [Telegram.send_from]. unfold Telegram.attempt_delivery.
  destruct (attempt_succeeds env (attempts_made w)); [reflexivity|].
  destruct (Z.of_nat attempt =? Z.of_nat max - 1); [reflexivity|].
  unfold sleep, emit, after_attempts. cbn. rewrite <- app_assoc. reflexivity.
Qed.

Lemma after_attempts_after (w : World) (n m : nat) (evs evs' : list event) :
  after_attempts (after_attempts w n evs) m evs'
  = after_attempts w (n + m) (evs ++ evs').
Proof.
  unfold after_attempts. cbn. f_equal; [lia|]. rewrite <- app_assoc. reflexivity.
Qed.

Lemma send_from_succeeds env max x : forall k rem attempt w,
  (k < rem)%nat -> (attempt + rem = max)%nat ->
  (forall i, (i < k)%nat -> attempt_succeeds env (attempts_made w + i) = false) ->
  attempt_succeeds env (attempts_made w + k) = true ->
  Telegram.send_from env max rem attempt x w
  = (Some true, after_attempts w (S k) (retry_trace x attempt k)).
Proof.
  induction k as [|k IH]; intros rem attempt w Hk Hmax Hfail Hok;
    (destruct rem as [|rem]; [lia|]); rewrite send_from_step.
  - rewrite Nat.add_0_r in Hok. rewrite Hok. reflexivity.
  - pose proof (Hfail 0%nat ltac:(lia)) as H0. rewrite Nat.add_0_r in H0.
    rewrite H0.
    destruct (Z.eqb_spec (Z.of_nat attempt) (Z.of_nat max - 1)) as [Hlast|_];
      [lia|].
    rewrite (IH rem (S attempt)).
    + rewrite after_attempts_after. reflexivity.
    + lia.
    + lia.
    + intros i Hi. cbn. rewrite <- Nat.add_succ_r. apply Hfail. lia.
    + cbn. rewrite <- Nat.add_succ_r. exact Hok.
Qed.

Lemma send_from_exhausted env max x : forall rem attempt w,
  (attempt + S rem = max)%nat ->
  (forall i, (i < S rem)%nat -> attempt_succeeds env (attempts_made w + i) = false) ->
  Telegram.send_from env max (S rem) attempt x w
  = (Some false, after_attempts w (S rem) (retry_trace x attempt rem)).
Proof.
  induction rem as [|rem IH]; intros attempt w Hmax Hfail;
    rewrite send_from_step;
    pose proof (Hfail 0%nat ltac:(lia)) as H0; rewrite Nat.add_0_r in H0;
    rewrite H0.
  - destruct (Z.eqb_spec (Z.of_nat attempt) (Z.of_nat max - 1)) as [_|Hne];
      [reflexivity|lia].
  - destruct (Z.eqb_spec (Z.of_nat attempt) (Z.of_nat max - 1)) as [Hlast|_];
      [lia|].
    rewrite (IH (S attempt)).
    + rewrite after_attempts_after. reflexivity.
    + lia.
    + intros i Hi. cbn. rewrite <- Nat.add_succ_r. apply Hfail. lia.
Qed.

(** C5: with at least one attempt allowed, [send_notification] returns a
    boolean, never an exception: [True] as soon as an attempt succeeds,
    after that attempt and no further one; [False] when all [max_retries]
    attempts have failed.  After the failed attempt number [a] (from 0) and
    before the next one it sleeps [min(2^a * 5, 60)] seconds; there is no
    sleep before the first attempt nor after the last. *)
Theorem send_notification_retries (env : Env) (max_retries : nat)
  (x : NewsItem) (w : World) :
  (0 < max_retries)%nat ->
  (forall k, (k < max_retries)%nat ->
     (forall i, (i < k)%nat -> attempt_succeeds env (attempts_made w + i) = false) ->
     attempt_succeeds env (attempts_made w + k) = true ->
     Telegram.send_notification env max_retries x w
     = (Some true, after_attempts w (S k) (retry_trace x 0 k)))
  /\ ((forall i, (i < max_retries)%nat ->
         attempt_succeeds env (attempts_made w + i) = false) ->
      Telegram.send_notification env max_retries x w
      = (Some false,
         after_attempts w max_retries (retry_trace x 0 (max_retries - 1))))
  /\ (exists b w', Telegram.send_notification env max_retries x w = (Some b, w'))
  /\ (forall a, Telegram.wait_time a = Z.min (2 ^ Z.of_nat a * 5) 60).
Proof.
  intros Hpos.
  assert (forall k, (k < max_retries)%nat ->
     (forall i, (i < k)%nat -> attempt_succeeds env (attempts_made w + i) = false) ->
     attempt_succeeds env (attempts_made w + k) = true ->
     Telegram.send_notification env max_retries x w
     = (Some true, after_attempts w (S k) (retry_trace x 0 k))) as Hsucc.
  { intros k Hk Hfail Hok. apply send_from_succeeds; auto. }
  assert ((forall i, (i < max_retries)%nat ->
         attempt_succeeds env (attempts_made w + i) = false) ->
      Telegram.send_notification env max_retries x w
      = (Some false,
         after_attempts w max_retries (retry_trace x 0 (max_retries - 1))))
    as Hexh.
  { intros Hfail. unfold Telegram.send_notification.
    destruct max_retries as [|m]; [lia|].
    replace (S m - 1)%nat with m by lia.
    apply send_from_exhausted; auto. }
  split; [exact Hsucc|]. split; [exact Hexh|]. split; [|reflexivity].
  destruct (first_success_or_none
              (fun i => attempt_succeeds env (attempts_made w + i)) max_retries)
    as [(k & Hk & Hfail & Hok) | Hnone].
  - eexists _, _. apply (Hsucc k); assumption.
  - eexists _, _. apply Hexh. exact Hnone.
Qed.

Lemma send_notification_retries_witness :
  Telegram.send_notification SampleWorld.env_third_time_lucky 3 Sample.dated
    SampleWorld.world_empty
  = (Some true,
     mkWorld Sample.store_empty 3 0 0
       [ EvAttempt (link Sample.dated) false; EvSleep 5;
         EvAttempt (link Sample.dated) false; EvSleep 10;
         EvAttempt (link Sample.dated) false ]).
Proof.
  destruct (send_notification_retries SampleWorld.env_third_time_lucky 3
              Sample.dated SampleWorld.world_empty ltac:(lia)) as [H _].
  rewrite (H 2%nat).
  - reflexivity.
  - lia.
  - intros i Hi. destruct i as [|[|i]]; [reflexivity|reflexivity|lia].
  - reflexivity.
Defined.

(** Without any attempt allowed the loop body never runs and the call
    gives [None], which the caller takes for a failure. *)
Lemma send_notification_no_attempt (env : Env) (x : NewsItem) (w : World) :
  Telegram.send_notification env 0 x w = (None, w).
Proof. reflexivity. Qed.

Lemma send_notification_gives_up :
  Telegram.send_notification SampleWorld.env_telegram_down 3 Sample.dated
    SampleWorld.world_empty
  = (Some false,
     mkWorld Sample.store_empty 3 0 0
       [ EvAttempt (link Sample.dated) false; EvSleep 5;
         EvAttempt (link Sample.dated) false; EvSleep 10;
         EvAttempt (link Sample.dated) false ]).
Proof. reflexivity. Qed.

(** ** The scheduler *)

Lemma run_iteration_raise env cfg check st e w1 :
  check (Monitor.world st) = (Raise e, w1) ->
  Monitor.run_iteration env cfg check st
  = Monitor.mkRunState
      (Monitor.consecutive_errors st + 1) (Monitor._last_check st)
      (sleep (Monitor.backoff (Monitor.consecutive_errors st + 1)) w1).
Proof. intros H. unfold Monitor.run_iteration. rewrite H. reflexivity. Qed.

Lemma run_iteration_return env cfg check st u w1 :
  check (Monitor.world st) = (Return u, w1) ->
  Monitor.run_iteration env cfg check st
  = Monitor.mkRunState 0 (Some (clock env (clock_reads w1)))
      (sleep (Monitor.check_interval cfg) (snd (now env w1))).
Proof. intros H. unfold Monitor.run_iteration. rewrite H. reflexivity. Qed.

Lemma run_loop_failures env cfg check : forall n st,
  always_raises check ->
  Monitor.consecutive_errors (Monitor.run_loop env cfg check n st)
  = Monitor.consecutive_errors st + Z.of_nat n
  /\ ((0 < n)%nat ->
      exists tr,
        trace (Monitor.world (Monitor.run_loop env cfg check n st))
        = tr ++ [EvSleep (Monitor.backoff
                            (Monitor.consecutive_errors st + Z.of_nat n))]).
Proof.
  induction n as [|n IH]; intros st Hraise.
  - cbn. split; [lia|]. intros H. lia.
  - cbn [Monitor.run_loop].
    destruct (Hraise (Monitor.world st)) as (e & w1 & Hcheck).
    rewrite (run_iteration_raise env cfg check st e w1 Hcheck).
    destruct (IH (Monitor.mkRunState
                    (Monitor.consecutive_errors st + 1) (Monitor._last_check st)
                    (sleep (Monitor.backoff (Monitor.consecutive_errors st + 1)) w1))
                 Hraise) as [Hcount Htrace].
    cbn [Monitor.consecutive_errors] in Hcount, Htrace.
    split; [rewrite Hcount; lia|].
    intros _. destruct n as [|n].
    + cbn. exists (trace w1). repeat f_equal; lia.
    + destruct Htrace as [tr Htr]; [lia|]. exists tr. rewrite Htr.
      replace (Monitor.consecutive_errors st + 1 + Z.of_nat (S n))
        with (Monitor.consecutive_errors st + Z.of_nat (S (S n))) by lia.
      reflexivity.
Qed.

(** C6: a turn of the loop whose cycle raises adds one to
    [consecutive_errors] and then sleeps [min(2^count * 30, 3600)] seconds,
    with the new count; a turn whose cycle returns sets the count to 0 and
    sleeps [check_interval] seconds.  Hence after [n] failed cycles in a
    row, starting from 0, the count is [n] and the last sleep is
    [min(2^n * 30, 3600)]: 240 seconds for 3, 3600 seconds for 8. *)
Theorem scheduler_backoff (env : Env) (cfg : Monitor.Config)
  (check : World -> result unit * World) (st : Monitor.RunState) :
  (forall e w1, check (Monitor.world st) = (Raise e, w1) ->
     let st' := Monitor.run_iteration env cfg check st in
     Monitor.consecutive_errors st' = Monitor.consecutive_errors st + 1
     /\ trace (Monitor.world st')
        = trace w1
          ++ [EvSleep (Z.min (2 ^ (Monitor.consecutive_errors st + 1) * 30) 3600)])
  /\ (forall u w1, check (Monitor.world st) = (Return u, w1) ->
        let st' := Monitor.run_iteration env cfg check st in
        Monitor.consecutive_errors st' = 0
        /\ trace (Monitor.world st')
           = trace w1 ++ [EvSleep (Monitor.check_interval cfg)])
  /\ (forall n, always_raises check -> Monitor.consecutive_errors st = 0 ->
        (0 < n)%nat ->
        let st' := Monitor.run_loop env cfg check n st in
        Monitor.consecutive_errors st' = Z.of_nat n
        /\ exists tr,
             trace (Monitor.world st')
             = tr ++ [EvSleep (Z.min (2 ^ Z.of_nat n * 30) 3600)])
  /\ Monitor.backoff 3 = 240
  /\ Monitor.backoff 8 = 3600.
Proof.
  split; [|split; [|split; [|split; reflexivity]]].
  - intros e w1 H st'. subst st'.
    rewrite (run_iteration_raise env cfg check st e w1 H). split; reflexivity.
  - intros u w1 H st'. subst st'.
    rewrite (run_iteration_return env cfg check st u w1 H). split; reflexivity.
  - intros n Hraise Hzero Hn st'. subst st'.
    destruct (run_loop_failures env cfg check n st Hraise) as [Hcount Htrace].
    rewrite Hzero in Hcount, Htrace. cbn in Hcount, Htrace.
    split; [exact Hcount|]. exact (Htrace Hn).
Qed.

Lemma scheduler_backoff_witness :
  let st0 := Monitor.mkRunState 0 None SampleWorld.world_empty in
  (exists tr,
     trace (Monitor.world
              (Monitor.run_loop SampleRun.env_one_item SampleRun.cfg
                 SampleRun.failing_check 3 st0))
     = tr ++ [EvSleep 240])
  /\ (exists tr,
        trace (Monitor.world
                 (Monitor.run_loop SampleRun.env_one_item SampleRun.cfg
                    SampleRun.failing_check 8 st0))
        = tr ++ [EvSleep 3600])
  /\ trace (Monitor.world
              (Monitor.run_iteration SampleRun.env_one_item SampleRun.cfg
                 SampleRun.failing_check st0))
     = [EvSleep 60].
Proof.
  intros st0.
  destruct (scheduler_backoff SampleRun.env_one_item SampleRun.cfg
              SampleRun.failing_check st0) as (Hfail & _ & Hrow & _ & _).
  assert (always_raises SampleRun.failing_check) as Hraise
    by (intros w; exists OtherError, w; reflexivity).
  split; [|split].
  - destruct (Hrow 3%nat Hraise eq_refl ltac:(lia)) as [_ H]. exact H.
  - destruct (Hrow 8%nat Hraise eq_refl ltac:(lia)) as [_ H]. exact H.
  - destruct (Hfail OtherError SampleWorld.world_empty eq_refl) as [_ H]. exact H.
Defined.

(** ** A fetch that fails *)

Lemma get_news_failure env w :
  fetch_fails env w ->
  News.get_news env w
  = ([], mkWorld (storage w) (attempts_made w) (clock_reads w)
                 (S (requests_made w)) (trace w ++ [EvFetch])).
Proof.
  unfold fetch_fails, News.get_news. intros H.
  destruct (site env (requests_made w)) as [status cards|e]; [|reflexivity].
  destruct (Z.eqb_spec status 200) as [->|_]; [contradiction|reflexivity].
Qed.

(** C1, as stated, fails: with the site out of reach the cycle ends as a
    successful one; the count stays 0 and the sleep is [check_interval],
    not the backoff of a first failure. *)
Lemma fetch_failure_counts_as_success :
  let st := Monitor.run SampleRun.env_site_down SampleRun.cfg 1
              SampleWorld.world_empty in
  fetch_fails SampleRun.env_site_down SampleWorld.world_empty
  /\ Monitor.consecutive_errors st = 0
  /\ trace (Monitor.world st) = [EvFetch; EvSleep 600]
  /\ ~ (Monitor.consecutive_errors st = 1
        /\ trace (Monitor.world st) = [EvFetch; EvSleep (Monitor.backoff 1)]).
Proof.
  cbv zeta. split; [exact I|]. split; [reflexivity|]. split; [reflexivity|].
  intros [H _]. vm_compute in H. discriminate H.
Qed.

(** C1, amended: a failure of the fetch, an exception or a status other
    than 200, stays inside [get_news], which returns the empty list.  The
    cycle then returns normally: nothing is delivered, the store is as it
    was, [consecutive_errors] is set to 0 and the sleep is [check_interval]
    seconds.  Only a cycle that raises adds one to the count and sleeps
    [min(2^count * 30, 3600)] seconds. *)
Theorem fetch_failure_is_swallowed (env : Env) (cfg : Monitor.Config)
  (max_retries : nat) (st : Monitor.RunState) :
  fetch_fails env (Monitor.world st) ->
  let w := Monitor.world st in
  let st' := Monitor.run_iteration env cfg
               (Monitor._check_for_updates env max_retries) st in
  fst (News.get_news env w) = []
  /\ fst (Monitor._check_for_updates env max_retries w) = Return tt
  /\ storage (snd (Monitor._check_for_updates env max_retries w)) = storage w
  /\ attempts_made (snd (Monitor._check_for_updates env max_retries w))
     = attempts_made w
  /\ Monitor.consecutive_errors st' = 0
  /\ storage (Monitor.world st') = storage w
  /\ trace (Monitor.world st')
     = trace w ++ [EvFetch; EvSleep (Monitor.check_interval cfg)]
  /\ (forall check e w1, check w = (Raise e, w1) ->
        let st'' := Monitor.run_iteration env cfg check st in
        Monitor.consecutive_errors st'' = Monitor.consecutive_errors st + 1
        /\ trace (Monitor.world st'')
           = trace w1
             ++ [EvSleep (Z.min (2 ^ (Monitor.consecutive_errors st + 1) * 30)
                                3600)]).
Proof.
  intros Hfail w st'. subst w st'.
  assert (Monitor._check_for_updates env max_retries (Monitor.world st)
          = (Return tt,
             mkWorld (storage (Monitor.world st)) (attempts_made (Monitor.world st))
               (clock_reads (Monitor.world st))
               (S (requests_made (Monitor.world st)))
               (trace (Monitor.world st) ++ [EvFetch]))) as Hcheck.
  { unfold Monitor._check_for_updates. rewrite (get_news_failure _ _ Hfail).
    reflexivity. }
  rewrite (get_news_failure _ _ Hfail), Hcheck.
  rewrite (run_iteration_return _ _ _ _ _ _ Hcheck). cbn.
  repeat (split; [reflexivity|]).
  split; [rewrite <- app_assoc; reflexivity|].
  intros check e w1 H.
  rewrite (run_iteration_raise env cfg check st e w1 H). split; reflexivity.
Qed.

Lemma fetch_failure_is_swallowed_witness :
  let st := Monitor.mkRunState 2 None SampleWorld.world_empty in
  let st' := Monitor.run_iteration SampleRun.env_site_down SampleRun.cfg
               (Monitor._check_for_updates SampleRun.env_site_down 3) st in
  Monitor.consecutive_errors st' = 0
  /\ trace (Monitor.world st') = [EvFetch; EvSleep 600].
Proof.
  intros st st'.
  destruct (fetch_failure_is_swallowed SampleRun.env_site_down SampleRun.cfg 3 st I)
    as (_ & _ & _ & _ & Hcount & _ & Htrace & _).
  split; [exact Hcount | exact Htrace].
Defined.

(** ** A batch *)

Lemma concerns_weaken (ls ls' : list string) (e : event) :
  (forall l, l ∈ ls -> l ∈ ls') -> concerns ls e -> concerns ls' e.
Proof. intros Hsub. destruct e; cbn; auto. Qed.

Lemma concerns_not_cleanup (ls : list string) (evs : list event) :
  Forall (concerns ls) evs -> EvCleanup ∉ evs.
Proof.
  intros Hall Hin. rewrite Forall_forall in Hall.
  apply (Hall EvCleanup Hin).
Qed.

(** Sending touches neither the store nor the clock, and leaves only
    attempts and sleeps for that item. *)
Lemma send_from_frame env max x : forall rem attempt w,
  let w' := snd (Telegram.send_from env max rem attempt x w) in
  storage w' = storage w /\ clock_reads w' = clock_reads w
  /\ exists evs, trace w' = trace w ++ evs /\ Forall (concerns [link x]) evs.
Proof.
  induction rem as [|rem IH]; intros attempt w.
  - cbn. split; [reflexivity|]. split; [reflexivity|].
    exists []. split; [rewrite app_nil_r; reflexivity | constructor].
  - cbv zeta. rewrite send_from_step.
    assert (concerns [link x] (EvAttempt (link x) (has_image x))) as Hatt
      by (cbn; apply list_elem_of_singleton; reflexivity).
    destruct (attempt_succeeds env (attempts_made w)).
    { cbn. split; [reflexivity|]. split; [reflexivity|]. eexists. split; [reflexivity|].
      constructor; [exact Hatt | constructor]. }
    destruct (Z.of_nat attempt =? Z.of_nat max - 1).
    { cbn. split; [reflexivity|]. split; [reflexivity|]. eexists. split; [reflexivity|].
      constructor; [exact Hatt | constructor]. }
    destruct (IH (S attempt)
                (after_attempts w 1 [EvAttempt (link x) (has_image x);
                                     EvSleep (Telegram.wait_time attempt)]))
      as (Hs & Hc & evs & Htr & Hall).
    cbv zeta in Hs, Hc, Htr. rewrite Hs, Hc, Htr. cbn.
    split; [reflexivity|]. split; [reflexivity|].
    eexists. split; [rewrite <- app_assoc; reflexivity|].
    cbn. constructor; [exact Hatt|]. constructor; [exact I | exact Hall].
Qed.

Lemma mark_as_processed_lookup_other (x : NewsItem) (t : datetime)
  (s : StorageService) (l : string) :
  l ≠ link x ->
  _processed_news (Storage.mark_as_processed x t s) !! l = _processed_news s !! l.
Proof.
  intros Hne. destruct (Storage.is_processed s x) eqn:E.
  - rewrite mark_as_processed_noop by assumption. reflexivity.
  - rewrite mark_as_processed_fresh by assumption. cbn.
    apply lookup_insert_ne. congruence.
Qed.

Lemma mark_as_processed_links (x : NewsItem) (t : datetime) (s : StorageService) :
  _processed_links s ⊆ _processed_links (Storage.mark_as_processed x t s).
Proof.
  destruct (Storage.is_processed s x) eqn:E.
  - rewrite mark_as_processed_noop by assumption. reflexivity.
  - rewrite mark_as_processed_fresh by assumption. cbn. set_solver.
Qed.

Lemma monitor_mark_as_processed_storage env x w :
  trace (Monitor.mark_as_processed env x w) = trace w
  /\ storage (Monitor.mark_as_processed env x w)
     = Storage.mark_as_processed x (clock env (clock_reads w)) (storage w).
Proof.
  unfold Monitor.mark_as_processed.
  destruct (Storage.is_processed (storage w) x) eqn:E.
  - rewrite mark_as_processed_noop by assumption. split; reflexivity.
  - cbn. split; reflexivity.
Qed.

(** One item: the records of other links stay, no link leaves the index,
    and the events are about this item. *)
Lemma process_item_frame env max x w :
  let w' := Monitor.process_item env max x w in
  (forall l, l ≠ link x ->
     _processed_news (storage w') !! l = _processed_news (storage w) !! l)
  /\ _processed_links (storage w) ⊆ _processed_links (storage w')
  /\ exists evs, trace w' = trace w ++ evs /\ Forall (concerns [link x]) evs.
Proof.
  cbv zeta. unfold Monitor.process_item, Telegram.send_notification.
  pose proof (send_from_frame env max x max 0%nat w) as (Hs & _ & evs & Htr & Hall).
  cbv zeta in Hs, Htr.
  destruct (Telegram.send_from env max max 0 x w) as [success w1].
  cbn [snd] in Hs, Htr.
  destruct (Telegram.truthy success).
  - destruct (monitor_mark_as_processed_storage env x
                (emit (EvMark (link x)) w1)) as [Htr' Hst'].
    rewrite Htr', Hst'. cbn [emit storage trace clock_reads]. rewrite Hs, Htr.
    split; [intros l Hl; apply mark_as_processed_lookup_other; exact Hl|].
    split; [apply mark_as_processed_links|].
    exists (evs ++ [EvMark (link x)]). split; [rewrite app_assoc; reflexivity|].
    apply Forall_app. split; [exact Hall|].
    constructor; [|constructor]. cbn. apply list_elem_of_singleton. reflexivity.
  - rewrite Hs, Htr. split; [reflexivity|]. split; [reflexivity|].
    exists evs. split; [reflexivity | exact Hall].
Qed.

Lemma process_items_frame env max : forall items w,
  let w' := Monitor.process_items env max items w in
  (forall l, l ∉ map link items ->
     _processed_news (storage w') !! l = _processed_news (storage w) !! l)
  /\ _processed_links (storage w) ⊆ _processed_links (storage w')
  /\ exists evs, trace w' = trace w ++ evs
                 /\ Forall (concerns (map link items)) evs.
Proof.
  induction items as [|x items IH]; intros w.
  - cbn. split; [reflexivity|]. split; [reflexivity|].
    exists []. split; [rewrite app_nil_r; reflexivity | constructor].
  - cbv zeta. cbn [Monitor.process_items fold_left].
    destruct (process_item_frame env max x w) as (Hl1 & Hs1 & evs1 & Htr1 & Hall1).
    destruct (IH (Monitor.process_item env max x w))
      as (Hl2 & Hs2 & evs2 & Htr2 & Hall2).
    cbv zeta in *. unfold Monitor.process_items in *.
    split; [|split].
    + intros l Hl. cbn in Hl. rewrite not_elem_of_cons in Hl. destruct Hl as [Hne Hl].
      rewrite Hl2 by exact Hl. apply Hl1. exact Hne.
    + etransitivity; eassumption.
    + exists (evs1 ++ evs2). split; [rewrite Htr2, Htr1, app_assoc; reflexivity|].
      apply Forall_app. split.
      * eapply Forall_impl; [exact Hall1|]. intros e. apply concerns_weaken.
        intros l Hl. apply list_elem_of_singleton in Hl as ->. cbn.
        apply elem_of_cons. left. reflexivity.
      * eapply Forall_impl; [exact Hall2|]. intros e. apply concerns_weaken.
        intros l Hl. cbn. apply elem_of_cons. right. exact Hl.
Qed.



Lemma process_news_batch_nothing_new env max items w :
  Storage.get_unprocessed_news (storage w) items = [] ->
  Monitor._process_news_batch env max items w = w.
Proof.
  intros H. unfold Monitor._process_news_batch. rewrite H.
  destruct items; reflexivity.
Qed.

Lemma process_news_batch_something_new env max items w :
  Storage.get_unprocessed_news (storage w) items <> [] ->
  Monitor._process_news_batch env max items w
  = Monitor.cleanup_old_entries env
      (Monitor.process_items env max
         (Storage.get_unprocessed_news (storage w) items) w).
Proof.
  intros H. unfold Monitor._process_news_batch.
  destruct items as [|y items]; [contradiction H; reflexivity|].
  destruct (Storage.get_unprocessed_news (storage w) (y :: items));
    [contradiction H; reflexivity | reflexivity].
Qed.

Lemma monitor_cleanup_old_entries_trace env w :
  trace (Monitor.cleanup_old_entries env w) = trace w ++ [EvCleanup]
  /\ storage (Monitor.cleanup_old_entries env w)
     = Storage.cleanup_old_entries 30 (clock env (clock_reads w)) (storage w).
Proof. split; reflexivity. Qed.

(** C4, as stated, fails: a cycle whose fetch gives nothing, and a cycle
    whose only item is in the store already, return normally without
    calling [cleanup_old_entries]. *)
Lemma no_prune_without_new_items :
  (fst (Monitor._check_for_updates SampleRun.env_no_news 3 SampleWorld.world_empty)
   = Return tt
   /\ trace (snd (Monitor._check_for_updates SampleRun.env_no_news 3
                    SampleWorld.world_empty))
      = [EvFetch])
  /\ (fst (Monitor._check_for_updates SampleRun.env_one_item 3
             SampleRun.world_has_dated)
      = Return tt
      /\ Storage.is_processed SampleRun.store_has_dated Sample.dated = true
      /\ trace (snd (Monitor._check_for_updates SampleRun.env_one_item 3
                       SampleRun.world_has_dated))
         = [EvFetch]).
Proof. vm_compute. repeat split; reflexivity. Qed.

(** C4, amended: [_process_news_batch] calls [cleanup_old_entries] once, as
    its last step, when at least one of the items is not in the store at the
    start of the batch, whether the deliveries succeed or not; when the
    fetch gave nothing or every item is in the store already it returns at
    once and does not prune. *)
Theorem prune_after_batch (env : Env) (max_retries : nat)
  (items : list NewsItem) (w : World) :
  let fresh := Storage.get_unprocessed_news (storage w) items in
  let wd := Monitor.process_items env max_retries fresh w in
  let w' := Monitor._process_news_batch env max_retries items w in
  (fresh = [] -> w' = w)
  /\ (fresh <> [] ->
      storage w'
      = Storage.cleanup_old_entries Storage.DEFAULT_MAX_AGE_DAYS
          (clock env (clock_reads wd)) (storage wd)
      /\ exists evs, trace w' = trace w ++ evs ++ [EvCleanup]
                     /\ EvCleanup ∉ evs).
Proof.
  cbv zeta. split.
  - apply process_news_batch_nothing_new.
  - intros Hnew. rewrite (process_news_batch_something_new _ _ _ _ Hnew).
    destruct (monitor_cleanup_old_entries_trace env
                (Monitor.process_items env max_retries
                   (Storage.get_unprocessed_news (storage w) items) w))
      as [Htr Hst].
    split; [exact Hst|].
    destruct (process_items_frame env max_retries
                (Storage.get_unprocessed_news (storage w) items) w)
      as (_ & _ & evs & Hevs & Hall).
    cbv zeta in Hevs. exists evs. split.
    + rewrite Htr, Hevs, <- app_assoc. reflexivity.
    + eapply concerns_not_cleanup. exact Hall.
Qed.

Lemma prune_after_failed_deliveries :
  trace (Monitor._process_news_batch SampleWorld.env_telegram_down 3
           [Sample.dated] SampleWorld.world_empty)
  = [ EvAttempt (link Sample.dated) false; EvSleep 5;
      EvAttempt (link Sample.dated) false; EvSleep 10;
      EvAttempt (link Sample.dated) false; EvCleanup ].
Proof. vm_compute. reflexivity. Qed.

Lemma prune_after_batch_witness :
  Storage.get_unprocessed_news Sample.store_empty [Sample.dated] <> []
  /\ exists evs,
       trace (Monitor._process_news_batch SampleWorld.env_telegram_down 3
                [Sample.dated] SampleWorld.world_empty)
       = trace SampleWorld.world_empty ++ evs ++ [EvCleanup]
       /\ EvCleanup ∉ evs.
Proof.
  assert (Storage.get_unprocessed_news Sample.store_empty [Sample.dated] <> [])
    as Hnew by (vm_compute; discriminate).
  split; [exact Hnew|].
  destruct (prune_after_batch SampleWorld.env_telegram_down 3 [Sample.dated]
              SampleWorld.world_empty) as [_ H].
  destruct (H Hnew) as [_ Hevs]. exact Hevs.
Defined.

(** *** Items that are in the store already *)











(** A link that is fetched twice in one batch while not in the store is
    delivered twice: the batch is filtered once, before the deliveries. *)
Lemma duplicate_link_delivered_twice :
  trace (Monitor._process_news_batch SampleRun.env_one_item 3
           [Sample.dated; SampleRun.dated_again] SampleWorld.world_empty)
  = [ EvAttempt (link Sample.dated) false; EvMark (link Sample.dated);
      EvAttempt (link Sample.dated) false; EvMark (link Sample.dated);
      EvCleanup ].
Proof. vm_compute. reflexivity. Qed.

Lemma three_items_in_date_order :
  trace (Monitor._process_news_batch SampleRun.env_three_items 3
           (News.sorted [Sample.undated; Sample.dated_later; Sample.dated])
           SampleRun.world_has_dated)
  = [ EvAttempt (link Sample.dated_later) true; EvMark (link Sample.dated_later);
      EvAttempt (link Sample.undated) false; EvMark (link Sample.undated);
      EvCleanup ].
Proof. vm_compute. reflexivity. Qed.

(** ** The date parser *)

Lemma make_raises_value_error (y m d : Z) (e : exn) :
  Datetime.make y m d = Raise e -> e = ValueError.
Proof.
  unfold Datetime.make.
  destruct ((1 <=? y) && (y <=? 9999) && (1 <=? m) && (m <=? 12)
            && (1 <=? d) && (d <=? Datetime._days_in_month y m));
    congruence.
Qed.

(** Whatever the text and the format, [strptime] raises nothing but
    [ValueError]. *)
Lemma strptime_raises_value_error (data_string format : string) (e : exn) :
  Strptime.strptime data_string format = Raise e -> e = ValueError.
Proof.
  unfold Strptime.strptime.
  destruct (Strptime.has_bad_directive (Strptime.compile format)); [congruence|].
  destruct (Strptime.regex_match _ data_string _) as [[f rest]|]; [|congruence].
  destruct (Str.is_empty rest); [apply make_raises_value_error | congruence].
Qed.

Lemma try_formats_cons (clean f : string) (fs : list string) :
  DateParser.try_formats clean (f :: fs)
  = match ParseSpec.exact_match clean f with
    | Some t => Return (Some t)
    | None => DateParser.try_formats clean fs
    end.
Proof.
  cbn [DateParser.try_formats]. unfold ParseSpec.exact_match.
  destruct (Strptime.strptime clean f) as [t|e] eqn:E; [reflexivity|].
  apply strptime_raises_value_error in E. subst e. reflexivity.
Qed.

Lemma normalize_date_string_spec (s : string) :
  DateParser._normalize_date_string s = ParseSpec.normalized s.
Proof. reflexivity. Qed.

Lemma parse_date_refines (s : string) :
  DateParser.parse_date s = Return (ParseSpec.parse s).
Proof.
  unfold DateParser.parse_date, ParseSpec.parse.
  destruct s as [|c s]; [reflexivity|].
  cbn [Str.is_empty]. rewrite normalize_date_string_spec.
  unfold DateParser.DATE_FORMATS, ParseSpec.first_exact_match.
  rewrite !try_formats_cons. cbn [DateParser.try_formats].
  unfold ParseSpec.or_else.
  repeat match goal with
         | |- context [ParseSpec.exact_match ?a ?b] =>
             destruct (ParseSpec.exact_match a b); try reflexivity
         end.
Qed.


(** The parser on texts of each kind. *)
Lemma parse_date_examples :
  DateParser.parse_date "25 oktober 2024" = Return (Some (mkDatetime 2024 10 25 0))
  /\ DateParser.parse_date "  3 MEI 2023 " = Return (Some (mkDatetime 2023 5 3 0))
  /\ DateParser.parse_date "October 5 2024" = Return (Some (mkDatetime 2024 10 5 0))
  /\ DateParser.parse_date "2024-10-25" = Return (Some (mkDatetime 2024 10 25 0))
  /\ DateParser.parse_date "25-10-2024" = Return (Some (mkDatetime 2024 10 25 0))
  /\ DateParser.parse_date "25/10/2024" = Return (Some (mkDatetime 2024 10 25 0))
  /\ DateParser.parse_date "29/02/2024" = Return (Some (mkDatetime 2024 2 29 0))
  /\ DateParser.parse_date "29/02/2023" = Return None
  /\ DateParser.parse_date "2024-10-255" = Return None
  /\ DateParser.parse_date "soon" = Return None.
Proof. vm_compute. repeat split; reflexivity. Qed.

(** Building an item succeeds whatever the date text. *)
Lemma new_item_always_succeeds (t d l : string) (img : option string) :
  Models.new t d l img = Return (mkNewsItem t d l img (ParseSpec.parse d)).
Proof.
  unfold Models.new.
  rewrite parse_date_refines. reflexivity.
Qed.

(** * Further properties *)

(** ** The store: invariants *)

Lemma entries_to_remove_return_iso now max items : forall ls,
  Storage.entries_to_remove now max items = Return ls ->
  forall l r, (l, r) ∈ items -> exists t, r_processed_at r = IsoText t.
Proof.
  induction items as [|[l0 r0] items IH]; intros ls Hls l r Hin.
  - inversion Hin.
  - cbn in Hls.
    destruct (Storage.age_days now r0) as [age|e] eqn:Hage; [|discriminate].
    destruct (Storage.entries_to_remove now max items) as [ls'|e]; [|discriminate].
    apply elem_of_cons in Hin as [Heq|Hin].
    + injection Heq as -> ->. unfold Storage.age_days in Hage.
      destruct (r_processed_at r0) as [t|]; [eauto|discriminate].
    + eapply IH; [reflexivity | exact Hin].
Qed.

Lemma cleanup_old_entries_keeps_consistent max now (s : StorageService) :
  consistent s -> consistent (Storage.cleanup_old_entries max now s).
Proof.
  intros Hcons.
  destruct (Storage.entries_to_remove now max (map_to_list (_processed_news s)))
    as [ls|e] eqn:Hls.
  - apply cleanup_old_entries_consistent; [exact Hcons|].
    intros l r Hr. eapply (entries_to_remove_return_iso _ _ _ _ Hls l r).
    apply elem_of_map_to_list. exact Hr.
  - unfold Storage.cleanup_old_entries. rewrite Hls. exact Hcons.
Qed.

Lemma apply_op_consistent (s : StorageService) (op : store_op) :
  consistent s -> consistent (apply_op s op).
Proof.
  destruct op as [x t|m t]; cbn.
  - apply mark_as_processed_consistent.
  - apply cleanup_old_entries_keeps_consistent.
Qed.

(** X1: whatever the file the store is built on, and whatever markings and
    cleanups follow, with whatever times and age limits, the dictionary and
    the set of links hold the same links; so [is_processed] answers for the
    dictionary. *)
Theorem store_always_consistent (f : file_state) (can_write : bool)
  (ops : list store_op) (x : NewsItem) :
  let s := apply_ops ops (Storage.__init__ f can_write) in
  dom (_processed_news s) = _processed_links s
  /\ (Storage.is_processed s x = true <->
      exists r, _processed_news s !! link x = Some r).
Proof.
  cbv zeta.
  assert (consistent (apply_ops ops (Storage.__init__ f can_write))) as Hcons.
  { unfold apply_ops. generalize (init_consistent f can_write).
    generalize (Storage.__init__ f can_write).
    induction ops as [|op ops IH]; intros s Hs; [exact Hs|].
    cbn. apply IH. apply apply_op_consistent. exact Hs. }
  split; [exact Hcons|].
  rewrite is_processed_true, <- Hcons, elem_of_dom. reflexivity.
Qed.

(** ** The store: what is never changed *)

Lemma remove_entries_only_removes : forall ls s l,
  (forall r, _processed_news (snd (Storage.remove_entries ls s)) !! l = Some r ->
             _processed_news s !! l = Some r)
  /\ (l ∈ _processed_links (snd (Storage.remove_entries ls s)) ->
      l ∈ _processed_links s)
  /\ file (snd (Storage.remove_entries ls s)) = file s
  /\ writable (snd (Storage.remove_entries ls s)) = writable s
  /\ saves (snd (Storage.remove_entries ls s)) = saves s.
Proof.
  induction ls as [|l0 ls IH]; intros s l.
  - cbn. auto.
  - cbn [Storage.remove_entries].
    destruct (_processed_news s !! l0); [|cbn; auto].
    cbn. destruct (bool_decide (l0 ∈ _processed_links s)).
    + match goal with
      | |- context [Storage.remove_entries ls ?s2] =>
          destruct (IH s2 l) as (Hnews & Hlinks & Hf & Hw & Hs)
      end.
      cbn in Hnews, Hlinks, Hf, Hw, Hs.
      split; [|split; [|auto]].
      * intros r Hr. apply Hnews in Hr.
        apply lookup_delete_Some in Hr as [_ Hr]. exact Hr.
      * intros Hin. apply Hlinks in Hin. set_solver.
    + cbn. split; [|auto]. intros r Hr.
      apply lookup_delete_Some in Hr as [_ Hr]. exact Hr.
Qed.

Lemma cleanup_old_entries_only_removes max now (s : StorageService) (l : string) :
  (forall r, _processed_news (Storage.cleanup_old_entries max now s) !! l = Some r ->
             _processed_news s !! l = Some r)
  /\ (l ∈ _processed_links (Storage.cleanup_old_entries max now s) ->
      l ∈ _processed_links s).
Proof.
  unfold Storage.cleanup_old_entries.
  destruct (Storage.entries_to_remove now max (map_to_list (_processed_news s)))
    as [ls|e]; [|auto].
  destruct (remove_entries_only_removes ls s l) as (Hnews & Hlinks & _).
  destruct (Storage.remove_entries ls s) as [[u|e] s1]; cbn [snd] in Hnews, Hlinks.
  - destruct ls; cbn; auto.
  - auto.
Qed.

(** X2: a stored record is never rewritten.  On a consistent store, marking
    an item leaves every record that is there as it is, also the one of the
    item itself; on any store, a cleanup adds no record and no link, and
    every record it leaves is the one that was there. *)
Theorem records_never_rewritten (s : StorageService) (x : NewsItem)
  (t now : datetime) (max : Z) (l : string) (r : ProcessedRecord) :
  (consistent s -> _processed_news s !! l = Some r ->
   _processed_news (Storage.mark_as_processed x t s) !! l = Some r)
  /\ (_processed_news (Storage.cleanup_old_entries max now s) !! l = Some r ->
      _processed_news s !! l = Some r)
  /\ (l ∈ _processed_links (Storage.cleanup_old_entries max now s) ->
      l ∈ _processed_links s).
Proof.
  split; [|destruct (cleanup_old_entries_only_removes max now s l) as [H1 H2];
            split; [apply H1 | exact H2]].
  intros Hcons Hr.
  destruct (decide (l = link x)) as [->|Hne].
  - rewrite mark_as_processed_noop; [exact Hr|].
    apply is_processed_true. rewrite <- Hcons. apply elem_of_dom. eauto.
  - rewrite mark_as_processed_lookup_other by exact Hne. exact Hr.
Qed.

Lemma records_never_rewritten_witness :
  _processed_news
    (Storage.mark_as_processed Sample.dated Sample.now SampleRun.store_has_dated)
  !! link Sample.dated
  = Some (Storage.record_of Sample.dated Sample.last_week).
Proof.
  destruct (records_never_rewritten SampleRun.store_has_dated Sample.dated
              Sample.now Sample.now 30 (link Sample.dated)
              (Storage.record_of Sample.dated Sample.last_week)) as [H _].
  apply H.
  - apply mark_as_processed_consistent, init_consistent.
  - vm_compute. reflexivity.
Defined.

(** ** The store and its file *)

Lemma init_restorable (f : file_state) (can_write : bool) :
  restorable (Storage.__init__ f can_write).
Proof.
  unfold restorable, Storage.__init__, Storage._load_processed_news,
    Storage._ensure_storage_exists, Storage._save_processed_news.
  destruct f as [| |content]; cbn; try destruct can_write; cbn; reflexivity.
Qed.

Lemma init_writable (f : file_state) (can_write : bool) :
  writable (Storage.__init__ f can_write) = can_write.
Proof.
  unfold Storage.__init__, Storage._load_processed_news,
    Storage._ensure_storage_exists, Storage._save_processed_news.
  destruct f as [| |content]; cbn; try destruct can_write; cbn; reflexivity.
Qed.

Lemma apply_op_restorable (s : StorageService) (op : store_op) :
  writable s = true -> consistent s -> restorable s ->
  restorable (apply_op s op) /\ writable (apply_op s op) = true.
Proof.
  intros Hw Hcons Hres. destruct op as [x t|m t]; cbn.
  - destruct (Storage.is_processed s x) eqn:E.
    + rewrite mark_as_processed_noop by exact E. auto.
    + rewrite mark_as_processed_fresh by exact E.
      unfold restorable. cbn. rewrite Hw. auto.
  - destruct (Storage.entries_to_remove t m (map_to_list (_processed_news s)))
      as [ls|e] eqn:Hls.
    + assert (ages_computable s) as Hiso.
      { intros l r Hr. eapply (entries_to_remove_return_iso _ _ _ _ Hls l r).
        apply elem_of_map_to_list. exact Hr. }
      destruct (cleanup_old_entries_spec m t s Hcons Hiso)
        as (ls' & s1 & Hls' & _ & Hrun & _ & _ & Hf & Hw1 & _ & Hclean).
      rewrite Hls in Hls'. injection Hls' as <-.
      rewrite Hclean. destruct ls as [|l0 ls].
      * cbn in Hrun. injection Hrun as <-. auto.
      * unfold restorable. cbn. rewrite Hw1, Hw. auto.
    + unfold Storage.cleanup_old_entries. rewrite Hls. auto.
Qed.

(** X3: on a file that can be written, after any markings and cleanups, a
    new start from the file gives the dictionary and the set of links that
    were in memory: nothing processed is forgotten, nothing pruned comes
    back. *)
Theorem restart_restores_memory (f : file_state) (ops : list store_op)
  (can_write : bool) :
  let s := apply_ops ops (Storage.__init__ f true) in
  let s' := Storage.__init__ (file s) can_write in
  _processed_news s' = _processed_news s
  /\ _processed_links s' = _processed_links s.
Proof.
  cbv zeta.
  assert (forall s, writable s = true -> consistent s -> restorable s ->
                    consistent (apply_ops ops s) /\ restorable (apply_ops ops s))
    as Hinv.
  { unfold apply_ops. induction ops as [|op ops IH]; intros s Hw Hc Hr; [auto|].
    cbn. destruct (apply_op_restorable s op Hw Hc Hr) as [Hr' Hw'].
    apply IH; [exact Hw' | apply apply_op_consistent; exact Hc | exact Hr']. }
  destruct (Hinv (Storage.__init__ f true) (init_writable f true)
              (init_consistent f true) (init_restorable f true)) as [Hc Hr].
  set (s := apply_ops ops (Storage.__init__ f true)) in *.
  unfold restorable in Hr. unfold consistent in Hc.
  unfold Storage.__init__, Storage._load_processed_news,
    Storage._ensure_storage_exists, Storage._save_processed_news.
  destruct (file s) as [| |content]; cbn; try destruct can_write; cbn;
    rewrite <- Hc; rewrite ?Hr; try rewrite dom_empty_L; subst; auto.
Qed.



(** ** The store: membership and filtering *)

Lemma is_processed_mark_iff (s : StorageService) (x y : NewsItem) (t : datetime) :
  Storage.is_processed (Storage.mark_as_processed x t s) y = true
  <-> link y = link x \/ Storage.is_processed s y = true.
Proof.
  rewrite !is_processed_true.
  destruct (Storage.is_processed s x) eqn:E.
  - rewrite mark_as_processed_noop by exact E. apply is_processed_true in E.
    split; [auto|]. intros [->|H]; assumption.
  - rewrite mark_as_processed_fresh by exact E. cbn. set_solver.
Qed.

(** X5: after an item is marked, the items that count as processed are
    those with the link of that item and those that counted before; so an
    item is unprocessed before its marking when it was never marked, and
    processed after. *)
Theorem is_processed_after_mark (s : StorageService) (x y : NewsItem)
  (t : datetime) :
  Storage.is_processed (Storage.mark_as_processed x t s) y = true
  <-> link y = link x \/ Storage.is_processed s y = true.
Proof. apply is_processed_mark_iff. Qed.

Lemma get_unprocessed_news_sublist (s : StorageService) (items : list NewsItem) :
  sublist (Storage.get_unprocessed_news s items) items.
Proof.
  unfold Storage.get_unprocessed_news.
  induction items as [|y items IH]; cbn; [constructor|].
  destruct (negb (Storage.is_processed s y)); constructor; exact IH.
Qed.

(** X6: [get_unprocessed_news] returns the items of its input that are not
    processed, all of them and no other, in the order of the input; after
    an item is marked it returns what it returned before without the items
    that have the link of that item. *)
Theorem get_unprocessed_news_exact (s : StorageService) (items : list NewsItem)
  (x : NewsItem) (t : datetime) :
  (forall y, y ∈ Storage.get_unprocessed_news s items
             <-> y ∈ items /\ Storage.is_processed s y = false)
  /\ sublist (Storage.get_unprocessed_news s items) items
  /\ Storage.get_unprocessed_news (Storage.mark_as_processed x t s) items
     = List.filter (fun y => negb (String.eqb (link y) (link x)))
                   (Storage.get_unprocessed_news s items).
Proof.
  split; [|split; [apply get_unprocessed_news_sublist|]].
  - intros y. unfold Storage.get_unprocessed_news.
    rewrite !list_elem_of_In, filter_In, negb_true_iff. reflexivity.
  - unfold Storage.get_unprocessed_news.
    induction items as [|y items IH]; [reflexivity|].
    cbn [List.filter]. rewrite IH.
    destruct (Storage.is_processed (Storage.mark_as_processed x t s) y) eqn:Ea.
    + apply is_processed_mark_iff in Ea.
      destruct (Storage.is_processed s y) eqn:Eb; [reflexivity|].
      destruct Ea as [Heq|Hc]; [|discriminate].
      cbn. rewrite Heq, String.eqb_refl. reflexivity.
    + assert (link y <> link x /\ Storage.is_processed s y = false) as [Hne Eb].
      { split.
        - intros Heq. rewrite (proj2 (is_processed_mark_iff s x y t)) in Ea;
            [discriminate | left; exact Heq].
        - destruct (Storage.is_processed s y) eqn:Eb; [|reflexivity].
          rewrite (proj2 (is_processed_mark_iff s x y t)) in Ea;
            [discriminate | right; exact Eb]. }
      rewrite Eb. cbn. apply String.eqb_neq in Hne. rewrite Hne. reflexivity.
Qed.

(** ** The order of the fetched items *)

Lemma lt_asym (a b : NewsItem) :
  Models.__lt__ a b = true -> Models.__lt__ b a = false.
Proof.
  intros Hab. destruct (Models.__lt__ b a) eqn:E; [|reflexivity].
  pose proof (lt_trans _ _ _ Hab E) as H. rewrite lt_irrefl in H. discriminate.
Qed.

Lemma insert_sorted_perm (x : NewsItem) (l : list NewsItem) :
  News.insert_sorted x l ≡ₚ x :: l.
Proof.
  induction l as [|y l IH]; cbn; [reflexivity|].
  destruct (Models.__lt__ y x); [|reflexivity].
  rewrite IH. apply Permutation_swap.
Qed.

Lemma insert_sorted_sorted (x : NewsItem) (l : list NewsItem) :
  StronglySorted (fun a b => Models.__lt__ b a = false) l ->
  StronglySorted (fun a b => Models.__lt__ b a = false) (News.insert_sorted x l).
Proof.
  induction l as [|y l IH]; intros Hs; cbn.
  - constructor; constructor.
  - apply StronglySorted_cons in Hs as [Hy Hl].
    destruct (Models.__lt__ y x) eqn:E.
    + apply StronglySorted_cons. split; [|apply IH; exact Hl].
      rewrite (insert_sorted_perm x l). constructor; [|exact Hy].
      apply lt_asym. exact E.
    + apply StronglySorted_cons. split.
      * constructor; [exact E|].
        eapply Forall_impl; [exact Hy|]. cbn. intros z Hz.
        eapply lt_negtrans; eassumption.
      * apply StronglySorted_cons. split; assumption.
Qed.

Lemma insert_sorted_same_rank (z x : NewsItem) (l : list NewsItem) :
  List.filter (same_rank z) (News.insert_sorted x l)
  = List.filter (same_rank z) (x :: l).
Proof.
  induction l as [|y l IH]; [reflexivity|].
  cbn [News.insert_sorted]. destruct (Models.__lt__ y x) eqn:E; [|reflexivity].
  cbn [List.filter] in *. rewrite IH.
  destruct (same_rank z y) eqn:Ey; [|reflexivity].
  destruct (same_rank z x) eqn:Ex; [|reflexivity].
  exfalso. unfold same_rank in Ey, Ex.
  apply andb_true_iff in Ey as [_ Hyz]. apply andb_true_iff in Ex as [Hzx _].
  apply negb_true_iff in Hyz, Hzx.
  rewrite (lt_negtrans _ _ _ Hyz Hzx) in E. discriminate.
Qed.

Lemma sorted_perm (l : list NewsItem) : News.sorted l ≡ₚ l.
Proof.
  induction l as [|x l IH]; cbn; [reflexivity|].
  rewrite insert_sorted_perm, IH. reflexivity.
Qed.

Lemma sorted_sorted (l : list NewsItem) :
  StronglySorted (fun a b => Models.__lt__ b a = false) (News.sorted l).
Proof.
  induction l as [|x l IH]; cbn; [constructor|].
  apply insert_sorted_sorted. exact IH.
Qed.

Lemma sorted_same_rank (z : NewsItem) (l : list NewsItem) :
  List.filter (same_rank z) (News.sorted l) = List.filter (same_rank z) l.
Proof.
  induction l as [|x l IH]; [reflexivity|].
  cbn [News.sorted]. rewrite insert_sorted_same_rank.
  cbn [List.filter]. rewrite IH. reflexivity.
Qed.

(** X7: what [get_news] returns is in ascending order: no item is less
    than one that comes before it, so that items without a parsed date come
    after all the others.  On a response with status 200 it returns the
    cards of the page, each as often as it is there, and items of the same
    rank (the same date, or no date) keep the order of the page. *)
Theorem get_news_in_date_order (env : Env) (w : World) :
  let items := fst (News.get_news env w) in
  StronglySorted (fun a b => Models.__lt__ b a = false) items
  /\ (forall l1 a l2 b l3, items = l1 ++ a :: l2 ++ b :: l3 ->
        _parsed_date a = None -> _parsed_date b = None)
  /\ (forall cards, site env (requests_made w) = HttpResponse 200 cards ->
        items ≡ₚ cards
        /\ forall z, List.filter (same_rank z) items
                     = List.filter (same_rank z) cards).
Proof.
  cbv zeta.
  assert (StronglySorted (fun a b => Models.__lt__ b a = false)
            (fst (News.get_news env w))) as Hsorted.
  { unfold News.get_news.
    destruct (site env (requests_made w)) as [status cards|e];
      [destruct (status =? 200)|]; cbn; try constructor.
    apply sorted_sorted. }
  split; [exact Hsorted|]. split.
  - intros l1 a l2 b l3 Heq Ha. rewrite Heq in Hsorted.
    apply StronglySorted_app_1_r, StronglySorted_cons in Hsorted as [Hall _].
    rewrite Forall_forall in Hall.
    assert (Models.__lt__ b a = false) as Hba.
    { apply Hall. apply elem_of_app. right. apply elem_of_cons. left. reflexivity. }
    destruct (_parsed_date b) as [tb|] eqn:Hb; [|reflexivity].
    rewrite (lt_parsed_unparsed b a tb Hb Ha) in Hba. discriminate.
  - intros cards Hsite. unfold News.get_news. rewrite Hsite. cbn.
    split; [apply sorted_perm | intros z; apply sorted_same_rank].
Qed.

Lemma get_news_in_date_order_witness :
  fst (News.get_news SampleRun.env_three_items SampleWorld.world_empty)
  ≡ₚ [Sample.undated; Sample.dated_later; Sample.dated]
  /\ fst (News.get_news SampleRun.env_three_items SampleWorld.world_empty)
     = [Sample.dated; Sample.dated_later; Sample.undated].
Proof.
  destruct (get_news_in_date_order SampleRun.env_three_items
              SampleWorld.world_empty) as (_ & _ & H).
  destruct (H _ eq_refl) as [Hperm _].
  split; [exact Hperm | reflexivity].
Defined.

(** ** Waiting times *)

Lemma pow2_pos (n : Z) : 0 <= n -> 1 <= 2 ^ n.
Proof. intros H. pose proof (Z.pow_pos_nonneg 2 n ltac:(lia) H). lia. Qed.

Lemma wait_time_bounds (a : nat) : 5 <= Telegram.wait_time a <= 60.
Proof.
  unfold Telegram.wait_time. pose proof (pow2_pos (Z.of_nat a) ltac:(lia)). lia.
Qed.

Lemma wait_time_mono (a b : nat) :
  (a <= b)%nat -> Telegram.wait_time a <= Telegram.wait_time b.
Proof.
  intros H. unfold Telegram.wait_time.
  pose proof (Z.pow_le_mono_r 2 (Z.of_nat a) (Z.of_nat b) ltac:(lia) ltac:(lia)).
  lia.
Qed.

Lemma retry_trace_sleep (x : NewsItem) : forall k a,
  0 <= total_sleep (retry_trace x a k) <= 60 * Z.of_nat k
  /\ attempts_in (retry_trace x a k) = S k.
Proof.
  induction k as [|k IH]; intros a.
  - cbn. split; [lia|reflexivity].
  - cbn [retry_trace total_sleep fold_right].
    destruct (IH (S a)) as [Hs Ha]. fold (total_sleep (retry_trace x (S a) k)).
    pose proof (wait_time_bounds a). split; [lia|].
    unfold attempts_in in *. cbn. rewrite Ha. reflexivity.
Qed.

(** What a call of [send_notification] leaves, whatever the client does. *)
Lemma send_notification_shape env max x w :
  (0 < max)%nat ->
  exists k, (k < max)%nat
    /\ (forall i, (i < k)%nat -> attempt_succeeds env (attempts_made w + i) = false)
    /\ snd (Telegram.send_notification env max x w)
       = after_attempts w (S k) (retry_trace x 0 k)
    /\ ((fst (Telegram.send_notification env max x w) = Some true
         /\ attempt_succeeds env (attempts_made w + k) = true)
        \/ (fst (Telegram.send_notification env max x w) = Some false
            /\ k = (max - 1)%nat
            /\ forall i, (i < max)%nat ->
                         attempt_succeeds env (attempts_made w + i) = false)).
Proof.
  intros Hpos.
  destruct (first_success_or_none
              (fun i => attempt_succeeds env (attempts_made w + i)) max)
    as [(k & Hk & Hfail & Hok) | Hnone].
  - exists k. unfold Telegram.send_notification.
    rewrite (send_from_succeeds env max x k max 0%nat w Hk eq_refl Hfail Hok).
    cbn. split; [exact Hk|]. split; [exact Hfail|]. split; [reflexivity|].
    left. split; [reflexivity | exact Hok].
  - exists (max - 1)%nat. unfold Telegram.send_notification.
    destruct max as [|m]; [lia|]. replace (S m - 1)%nat with m by lia.
    rewrite (send_from_exhausted env (S m) x m 0%nat w eq_refl Hnone).
    cbn. split; [lia|]. split; [intros i Hi; apply Hnone; lia|].
    split; [reflexivity|]. right. auto.
Qed.

(** X8: the sleep after a failed attempt is between 5 and 60 seconds, does
    not shrink from one attempt to the next, and is 60 seconds from the
    fifth attempt on.  A call of [send_notification] makes at least one and
    at most [max_retries] attempts and sleeps at most 60 seconds for each
    attempt but the last; with the three attempts of the default that is 15
    seconds at most. *)
Theorem send_notification_time_bounded (env : Env) (max_retries : nat)
  (x : NewsItem) (w : World) :
  (0 < max_retries)%nat ->
  (forall a, 5 <= Telegram.wait_time a <= 60)
  /\ (forall a b, (a <= b)%nat -> Telegram.wait_time a <= Telegram.wait_time b)
  /\ (forall a, (4 <= a)%nat -> Telegram.wait_time a = 60)
  /\ exists evs,
       trace (snd (Telegram.send_notification env max_retries x w))
       = trace w ++ evs
       /\ (1 <= attempts_in evs <= max_retries)%nat
       /\ attempts_made (snd (Telegram.send_notification env max_retries x w))
          = (attempts_in evs + attempts_made w)%nat
       /\ 0 <= total_sleep evs <= 60 * (Z.of_nat max_retries - 1)
       /\ (max_retries = 3%nat -> total_sleep evs <= 15).
Proof.
  intros Hpos.
  split; [apply wait_time_bounds|]. split; [apply wait_time_mono|]. split.
  { intros a Ha. unfold Telegram.wait_time.
    pose proof (Z.pow_le_mono_r 2 4 (Z.of_nat a) ltac:(lia) ltac:(lia)).
    change (2 ^ 4) with 16 in *. lia. }
  destruct (send_notification_shape env max_retries x w Hpos)
    as (k & Hk & _ & Hworld & _).
  rewrite Hworld. exists (retry_trace x 0 k).
  unfold after_attempts. cbn [trace attempts_made].
  destruct (retry_trace_sleep x k 0) as [Hs Ha].
  split; [reflexivity|]. rewrite Ha.
  split; [lia|]. split; [reflexivity|]. split; [lia|].
  intros ->. clear Hs Ha.
  destruct k as [|[|[|k]]]; [| | |lia].
  - change (total_sleep (retry_trace x 0 0)) with 0. lia.
  - change (total_sleep (retry_trace x 0 1)) with 5. lia.
  - change (total_sleep (retry_trace x 0 2)) with 15. lia.
Qed.

Lemma send_notification_time_bounded_witness :
  exists evs,
    trace (snd (Telegram.send_notification SampleWorld.env_telegram_down 3
                  Sample.dated SampleWorld.world_empty))
    = trace SampleWorld.world_empty ++ evs
    /\ total_sleep evs <= 15.
Proof.
  destruct (send_notification_time_bounded SampleWorld.env_telegram_down 3
              Sample.dated SampleWorld.world_empty ltac:(lia))
    as (_ & _ & _ & evs & Htr & _ & _ & _ & H15).
  exists evs. split; [exact Htr | apply H15; reflexivity].
Defined.



(** ** The waits of the scheduler *)

Lemma backoff_bounds (n : Z) : 1 <= n -> 60 <= Monitor.backoff n <= 3600.
Proof.
  intros H. unfold Monitor.backoff.
  pose proof (Z.pow_le_mono_r 2 1 n ltac:(lia) H).
  change (2 ^ 1) with 2 in *. lia.
Qed.

(** X10: after a failed cycle the scheduler sleeps at least a minute and at
    most an hour; the sleep does not shrink as failures follow one another,
    doubles up to the sixth failure in a row and is an hour from the seventh
    on.  A turn of the loop ends with one sleep, which is [check_interval]
    or such a backoff, and leaves the count of failures non-negative. *)
Theorem scheduler_sleep_bounded (env : Env) (cfg : Monitor.Config)
  (check : World -> result unit * World) (st : Monitor.RunState) :
  0 <= Monitor.consecutive_errors st ->
  (forall n, 1 <= n -> 60 <= Monitor.backoff n <= 3600)
  /\ (forall n m, 0 <= n <= m -> Monitor.backoff n <= Monitor.backoff m)
  /\ (forall n, 0 <= n <= 6 -> Monitor.backoff n = 30 * 2 ^ n)
  /\ (forall n, 7 <= n -> Monitor.backoff n = 3600)
  /\ let st' := Monitor.run_iteration env cfg check st in
     0 <= Monitor.consecutive_errors st'
     /\ exists tr d,
          trace (Monitor.world st') = tr ++ [EvSleep d]
          /\ (d = Monitor.check_interval cfg \/ 60 <= d <= 3600).
Proof.
  intros Hc.
  split; [apply backoff_bounds|]. split; [|split; [|split]].
  - intros n m H. unfold Monitor.backoff.
    pose proof (Z.pow_le_mono_r 2 n m ltac:(lia) ltac:(lia)). lia.
  - intros n H. unfold Monitor.backoff.
    pose proof (Z.pow_le_mono_r 2 n 6 ltac:(lia) ltac:(lia)).
    change (2 ^ 6) with 64 in *. lia.
  - intros n H. unfold Monitor.backoff.
    pose proof (Z.pow_le_mono_r 2 7 n ltac:(lia) ltac:(lia)).
    change (2 ^ 7) with 128 in *. lia.
  - cbv zeta. destruct (check (Monitor.world st)) as [[u|e] w1] eqn:Hcheck.
    + rewrite (run_iteration_return env cfg check st u w1 Hcheck). cbn.
      split; [lia|]. eexists _, _. split; [reflexivity|]. left. reflexivity.
    + rewrite (run_iteration_raise env cfg check st e w1 Hcheck). cbn.
      split; [lia|]. eexists _, _. split; [reflexivity|]. right.
      apply backoff_bounds. lia.
Qed.

Lemma scheduler_sleep_bounded_witness :
  exists tr d,
    trace (Monitor.world
             (Monitor.run_iteration SampleRun.env_one_item SampleRun.cfg
                SampleRun.failing_check
                (Monitor.mkRunState 11 None SampleWorld.world_empty)))
    = tr ++ [EvSleep d]
    /\ (d = 600 \/ 60 <= d <= 3600).
Proof.
  destruct (scheduler_sleep_bounded SampleRun.env_one_item SampleRun.cfg
              SampleRun.failing_check
              (Monitor.mkRunState 11 None SampleWorld.world_empty))
    as (_ & _ & _ & _ & _ & H).
  - cbn. lia.
  - exact H.
Defined.

(** ** The deliveries of a batch *)

(** What the handling of one item leaves, whatever the client does:
    attempts and sleeps, then the marking when the last attempt went
    through. *)
Lemma process_item_shape env max x w :
  (0 < max)%nat ->
  exists k (marked : bool),
    (k < max)%nat
    /\ (forall i, (i < k)%nat -> attempt_succeeds env (attempts_made w + i) = false)
    /\ attempt_succeeds env (attempts_made w + k) = marked
    /\ (marked = false -> k = (max - 1)%nat)
    /\ trace (Monitor.process_item env max x w)
       = trace w ++ retry_trace x 0 k
           ++ (if marked then [EvMark (link x)] else [])
    /\ attempts_made (Monitor.process_item env max x w)
       = (S k + attempts_made w)%nat
    /\ storage (Monitor.process_item env max x w)
       = (if marked
          then Storage.mark_as_processed x (clock env (clock_reads w)) (storage w)
          else storage w).
Proof.
  intros Hpos. unfold Monitor.process_item.
  destruct (send_notification_shape env max x w Hpos)
    as (k & Hk & Hfail & Hworld & Hres).
  destruct (Telegram.send_notification env max x w) as [r w1].
  cbn [fst snd] in Hworld, Hres. subst w1.
  destruct Hres as [[-> Hok] | (-> & Hlast & Hnone)]; cbn [Telegram.truthy].
  - exists k, true. split; [exact Hk|]. split; [exact Hfail|].
    split; [exact Hok|]. split; [discriminate|].
    destruct (monitor_mark_as_processed_storage env x
                (emit (EvMark (link x)) (after_attempts w (S k) (retry_trace x 0 k))))
      as [Htr Hst].
    rewrite Htr, Hst. cbn. rewrite <- app_assoc. split; [reflexivity|].
    split; [|reflexivity].
    unfold Monitor.mark_as_processed. cbn.
    destruct (Storage.is_processed (storage w) x); reflexivity.
  - exists k, false. split; [exact Hk|]. split; [exact Hfail|].
    split; [apply Hnone; lia|]. split; [auto|]. cbn.
    rewrite app_nil_r. auto.
Qed.

Lemma process_items_all_succeed (env : Env) (max_retries : nat)
  (items : list NewsItem) (w : World) :
  (0 < max_retries)%nat ->
  (forall n, attempt_succeeds env n = true) ->
  let w' := Monitor.process_items env max_retries items w in
  trace w' = trace w ++ flat_map delivered_at_once items
  /\ attempts_made w' = (length items + attempts_made w)%nat
  /\ forall x, x ∈ items -> Storage.is_processed (storage w') x = true.
Proof.
  intros Hpos Hok. cbv zeta. revert w.
  induction items as [|x items IH]; intros w.
  - cbn. rewrite app_nil_r. split; [reflexivity|]. split; [reflexivity|].
    intros x Hx. inversion Hx.
  - unfold Monitor.process_items in *. cbn [fold_left].
    destruct (process_item_shape env max_retries x w Hpos)
      as (k & marked & _ & Hfail & Hk & _ & Htr & Hatt & Hst).
    assert (k = 0%nat) as ->.
    { destruct k as [|k]; [reflexivity|].
      specialize (Hfail 0%nat ltac:(lia)). rewrite Hok in Hfail. discriminate. }
    rewrite Hok in Hk. subst marked.
    destruct (IH (Monitor.process_item env max_retries x w)) as (Htr' & Hatt' & Hall).
    split; [|split].
    + rewrite Htr', Htr. cbn. rewrite <- app_assoc. reflexivity.
    + rewrite Hatt', Hatt. cbn. lia.
    + intros y Hy. apply elem_of_cons in Hy as [->|Hy]; [|apply Hall; exact Hy].
      apply is_processed_true.
      destruct (process_items_frame env max_retries items
                  (Monitor.process_item env max_retries x w)) as (_ & Hsub & _).
      apply Hsub. rewrite Hst. apply is_processed_true.
      apply mark_as_processed_is_processed.
Qed.

(** X11: when every attempt goes through, the items of a batch are
    delivered in the order in which they are given, each with one attempt
    followed by its marking, a photo for an item with an image and a text
    otherwise; afterwards every one of them is processed. *)
Theorem batch_delivered_in_order (env : Env) (max_retries : nat)
  (items : list NewsItem) (w : World) :
  (0 < max_retries)%nat ->
  (forall n, attempt_succeeds env n = true) ->
  let w' := Monitor.process_items env max_retries items w in
  trace w' = trace w ++ flat_map delivered_at_once items
  /\ attempts_made w' = (length items + attempts_made w)%nat
  /\ forall x, x ∈ items -> Storage.is_processed (storage w') x = true.
Proof. apply process_items_all_succeed. Qed.

Lemma batch_delivered_in_order_witness :
  trace (Monitor.process_items SampleRun.env_three_items 3
           [Sample.dated; Sample.dated_later; Sample.undated]
           SampleWorld.world_empty)
  = [ EvAttempt (link Sample.dated) false; EvMark (link Sample.dated);
      EvAttempt (link Sample.dated_later) true; EvMark (link Sample.dated_later);
      EvAttempt (link Sample.undated) false; EvMark (link Sample.undated) ].
Proof.
  destruct (batch_delivered_in_order SampleRun.env_three_items 3
              [Sample.dated; Sample.dated_later; Sample.undated]
              SampleWorld.world_empty ltac:(lia) (fun n => eq_refl)) as [H _].
  exact H.
Defined.

Lemma cleanup_old_entries_is_processed max now (s : StorageService) (y : NewsItem) :
  Storage.is_processed s y = false ->
  Storage.is_processed (Storage.cleanup_old_entries max now s) y = false.
Proof.
  rewrite !is_processed_false. intros Hy Hin. apply Hy.
  destruct (cleanup_old_entries_only_removes max now s (link y)) as [_ H].
  apply H. exact Hin.
Qed.

(** X12: when no attempt goes through, each item of a batch gets
    [max_retries] attempts with the sleeps between them and none is marked:
    the store is as it was, nothing is saved, and after the batch, prune
    included, every item that was unprocessed is still unprocessed, to be
    tried again in the next cycle. *)
Theorem batch_with_client_down (env : Env) (max_retries : nat)
  (items : list NewsItem) (w : World) :
  (0 < max_retries)%nat ->
  (forall n, attempt_succeeds env n = false) ->
  let wd := Monitor.process_items env max_retries items w in
  trace wd
  = trace w ++ flat_map (fun x => retry_trace x 0 (max_retries - 1)) items
  /\ attempts_made wd = (max_retries * length items + attempts_made w)%nat
  /\ storage wd = storage w
  /\ forall y, Storage.is_processed (storage w) y = false ->
               Storage.is_processed
                 (storage (Monitor._process_news_batch env max_retries items w)) y
               = false.
Proof.
  intros Hpos Hdown. cbv zeta.
  assert (forall items w,
            trace (Monitor.process_items env max_retries items w)
            = trace w ++ flat_map (fun x => retry_trace x 0 (max_retries - 1)) items
            /\ attempts_made (Monitor.process_items env max_retries items w)
               = (max_retries * length items + attempts_made w)%nat
            /\ storage (Monitor.process_items env max_retries items w) = storage w)
    as Hitems.
  { clear items w. induction items as [|x items IH]; intros w.
    - cbn. rewrite app_nil_r. split; [reflexivity|]. split; [lia|reflexivity].
    - unfold Monitor.process_items in *. cbn [fold_left].
      destruct (process_item_shape env max_retries x w Hpos)
        as (k & marked & _ & _ & Hk & Hlast & Htr & Hatt & Hst).
      rewrite Hdown in Hk. subst marked. rewrite (Hlast eq_refl) in Htr, Hatt.
      destruct (IH (Monitor.process_item env max_retries x w)) as (Htr' & Hatt' & Hst').
      split; [|split].
      + rewrite Htr', Htr. cbn. rewrite app_nil_r, <- app_assoc. reflexivity.
      + rewrite Hatt', Hatt. cbn [length]. lia.
      + rewrite Hst', Hst. reflexivity. }
  destruct (Hitems items w) as (Htr & Hatt & Hst).
  split; [exact Htr|]. split; [exact Hatt|]. split; [exact Hst|].
  intros y Hy.
  destruct (Storage.get_unprocessed_news (storage w) items) as [|z fresh] eqn:E.
  - rewrite process_news_batch_nothing_new by exact E. exact Hy.
  - rewrite process_news_batch_something_new by (rewrite E; discriminate).
    destruct (monitor_cleanup_old_entries_trace env
                (Monitor.process_items env max_retries
                   (Storage.get_unprocessed_news (storage w) items) w))
      as [_ Hclean].
    rewrite Hclean. apply cleanup_old_entries_is_processed.
    destruct (Hitems (Storage.get_unprocessed_news (storage w) items) w)
      as (_ & _ & ->). exact Hy.
Qed.

Lemma batch_with_client_down_witness :
  storage (Monitor.process_items SampleWorld.env_telegram_down 3
             [Sample.dated; Sample.undated] SampleWorld.world_empty)
  = Sample.store_empty
  /\ attempts_made (Monitor.process_items SampleWorld.env_telegram_down 3
                      [Sample.dated; Sample.undated] SampleWorld.world_empty)
     = 6%nat.
Proof.
  destruct (batch_with_client_down SampleWorld.env_telegram_down 3
              [Sample.dated; Sample.undated] SampleWorld.world_empty
              ltac:(lia) (fun n => eq_refl)) as (_ & Hatt & Hst & _).
  split; [exact Hst | exact Hatt].
Defined.

(** X13: one item's failure does not stop the batch.  Whatever the client
    does, every item given to the delivery loop gets its own attempts, at
    least one and at most [max_retries], the first of them after all the
    events of the items before it; an item is marked only straight after an
    attempt for it that went through. *)
Theorem batch_attempts_every_item (env : Env) (max_retries : nat)
  (items : list NewsItem) (w : World) :
  (0 < max_retries)%nat ->
  exists segments : list (list event),
    trace (Monitor.process_items env max_retries items w)
    = trace w ++ concat segments
    /\ Forall2 (fun x seg =>
                  exists k, (k < max_retries)%nat
                    /\ (seg = retry_trace x 0 k
                        \/ seg = retry_trace x 0 k ++ [EvMark (link x)]))
               items segments.
Proof.
  intros Hpos. revert w. induction items as [|x items IH]; intros w.
  - exists []. cbn. rewrite app_nil_r. split; [reflexivity | constructor].
  - unfold Monitor.process_items in *. cbn [fold_left].
    destruct (process_item_shape env max_retries x w Hpos)
      as (k & marked & Hk & _ & _ & _ & Htr & _ & _).
    destruct (IH (Monitor.process_item env max_retries x w)) as (segs & Htr' & Hall).
    exists ((retry_trace x 0 k ++ (if marked then [EvMark (link x)] else []))
            :: segs).
    split.
    + rewrite Htr', Htr. cbn. rewrite <- !app_assoc. reflexivity.
    + constructor; [|exact Hall]. exists k. split; [exact Hk|].
      destruct marked; [right; reflexivity | left; apply app_nil_r].
Qed.

Lemma batch_attempts_every_item_witness :
  exists segments : list (list event),
    trace (Monitor.process_items SampleWorld.env_third_time_lucky 2
             [Sample.dated; Sample.undated] SampleWorld.world_empty)
    = concat segments
    /\ length segments = 2%nat.
Proof.
  destruct (batch_attempts_every_item SampleWorld.env_third_time_lucky 2
              [Sample.dated; Sample.undated] SampleWorld.world_empty ltac:(lia))
    as (segs & Htr & Hall).
  exists segs. split; [exact Htr|].
  apply Forall2_length in Hall. symmetry. exact Hall.
Defined.

(** ** What the date parser returns *)

Lemma make_valid (y m d : Z) (t : datetime) :
  Datetime.make y m d = Return t ->
  t = mkDatetime y m d 0
  /\ 1 <= y <= 9999 /\ 1 <= m <= 12 /\ 1 <= d <= Datetime._days_in_month y m.
Proof.
  unfold Datetime.make.
  destruct ((1 <=? y) && (y <=? 9999) && (1 <=? m) && (m <=? 12)
            && (1 <=? d) && (d <=? Datetime._days_in_month y m)) eqn:E;
    [|discriminate].
  intros H. injection H as <-.
  repeat (apply andb_true_iff in E as [E ?]).
  rewrite ?Z.leb_le in *. repeat split; lia.
Qed.

Lemma days_in_month_le_31 (y m : Z) : Datetime._days_in_month y m <= 31.
Proof.
  unfold Datetime._days_in_month.
  destruct ((m =? 2) && Datetime._is_leap y); [lia|].
  destruct (Z.to_nat (m - 1)) as [|[|[|[|[|[|[|[|[|[|[|[|n]]]]]]]]]]]]; cbn; try lia.
  destruct n; cbn; lia.
Qed.

Lemma strptime_valid (data_string format : string) (t : datetime) :
  Strptime.strptime data_string format = Return t ->
  exists y m d, Datetime.make y m d = Return t.
Proof.
  unfold Strptime.strptime.
  destruct (Strptime.has_bad_directive (Strptime.compile format)); [discriminate|].
  destruct (Strptime.regex_match _ data_string _) as [[f rest]|]; [|discriminate].
  destruct (Str.is_empty rest); [eauto | discriminate].
Qed.

Lemma try_formats_valid (clean : string) (t : datetime) : forall formats,
  DateParser.try_formats clean formats = Return (Some t) ->
  exists y m d, Datetime.make y m d = Return t.
Proof.
  induction formats as [|f formats IH]; [discriminate|].
  cbn [DateParser.try_formats].
  destruct (Strptime.strptime clean f) as [t'|e] eqn:E.
  - intros H. injection H as <-. eapply strptime_valid. exact E.
  - destruct e; try discriminate. exact IH.
Qed.

(** X14: a date that [parse_date] returns exists in the calendar: the year
    is between 1 and 9999, the month between 1 and 12, the day between 1 and
    the number of days of that month in that year, and the time is
    midnight.  A text that names a day that does not exist, such as the 30th
    of February, gives no date. *)
Theorem parse_date_gives_real_dates (s : string) (t : datetime) :
  DateParser.parse_date s = Return (Some t) ->
  1 <= year t <= 9999
  /\ 1 <= month t <= 12
  /\ 1 <= day t <= Datetime._days_in_month (year t) (month t)
  /\ day t <= 31
  /\ microsecond_of_day t = 0.
Proof.
  unfold DateParser.parse_date.
  destruct (Str.is_empty s); [discriminate|].
  intros H. apply try_formats_valid in H as (y & m & d & H).
  apply make_valid in H as (-> & Hy & Hm & Hd). cbn.
  pose proof (days_in_month_le_31 y m). repeat split; lia.
Qed.

Lemma parse_date_gives_real_dates_witness :
  DateParser.parse_date "29 februari 2024" = Return (Some (mkDatetime 2024 2 29 0))
  /\ DateParser.parse_date "29 februari 2023" = Return None
  /\ 29 <= Datetime._days_in_month 2024 2.
Proof.
  assert (DateParser.parse_date "29 februari 2024"
          = Return (Some (mkDatetime 2024 2 29 0))) as H by (vm_compute; reflexivity).
  split; [exact H|]. split; [vm_compute; reflexivity|].
  apply (parse_date_gives_real_dates _ _ H).
Defined.

(** ** Letter case and white space around a date *)







Lemma rstrip_cons_nonspace (c : ascii) (s : string) :
  Str.is_space c = false -> Str.rstrip (String c s) = String c (Str.rstrip s).
Proof.
  intros H. cbn. destruct (Str.rstrip s); [rewrite H|]; reflexivity.
Qed.









(** ** The connection to the messaging service *)

Lemma bot_cleanup_eq env mr app bot last nb ns nsd nc sl :
  Bot._cleanup env (Bot.mkTelegramService mr app bot last nb ns nsd nc sl)
  = match app with
    | Some _ => Bot.mkTelegramService mr None None None nb (S ns) nsd nc sl
    | None => Bot.mkTelegramService mr app bot last nb ns nsd nc sl
    end.
Proof. destruct app; reflexivity. Qed.

Lemma bot_initialize_eq env mr app bot last nb ns nsd nc sl :
  Bot._initialize env (Bot.mkTelegramService mr app bot last nb ns nsd nc sl)
  = let ns' := match app with Some _ => S ns | None => ns end in
    if Bot.build_succeeds env nb
    then (Return tt,
          Bot.mkTelegramService mr (Some nb) (Some nb)
            (Some (Bot.bot_clock env nc)) (S nb) ns' nsd (S nc) sl)
    else (Raise OtherError,
          match app with
          | Some _ => Bot.mkTelegramService mr None None None (S nb) ns' nsd nc sl
          | None => Bot.mkTelegramService mr None bot last (S nb) ns' nsd nc sl
          end).
Proof.
  destruct app; cbv zeta; unfold Bot._initialize;
    cbv beta iota zeta delta [Bot._application Bot._cleanup Bot.shutdown
      Bot.set_connection Bot.build Bot.max_retries Bot._bot
      Bot._last_initialization Bot.builds Bot.shutdowns Bot.sends
      Bot.clock_reads Bot.sleeps];
    destruct (Bot.build_succeeds env nb); reflexivity.
Qed.

Lemma bot_ensure_initialized_eq env mr app bot last nb ns nsd nc sl :
  Bot._ensure_initialized env
    (Bot.mkTelegramService mr app bot last nb ns nsd nc sl)
  = if Bot.needs_initialization (Bot.bot_clock env nc)
         (Bot.mkTelegramService mr app bot last nb ns nsd (S nc) sl)
    then Bot._initialize env
           (Bot.mkTelegramService mr app bot last nb ns nsd (S nc) sl)
    else (Return tt, Bot.mkTelegramService mr app bot last nb ns nsd (S nc) sl).
Proof. reflexivity. Qed.

Lemma bot_needs_initialization_eq ct mr app bot last nb ns nsd nc sl :
  Bot.needs_initialization ct
    (Bot.mkTelegramService mr app bot last nb ns nsd nc sl)
  = match bot, last with
    | Some _, Some t => Bot.older_than_ttl ct t
    | _, _ => true
    end.
Proof. destruct bot, last; reflexivity. Qed.

Lemma bot_send_eq env mr app bot last nb ns nsd nc sl :
  Bot.send env (Bot.mkTelegramService mr app bot last nb ns nsd nc sl)
  = ((if Bot.send_succeeds env nsd then Return tt else Raise OtherError),
     Bot.mkTelegramService mr app bot last nb ns (S nsd) nc sl).
Proof. reflexivity. Qed.

Ltac bot_cases s :=
  destruct s as [mr app bot last nb ns nsd nc sl];
  unfold all_or_nothing, torn_down, ready in *;
  cbn [Bot._application Bot._bot Bot._last_initialization Bot.max_retries
       Bot.builds Bot.shutdowns Bot.sends Bot.clock_reads Bot.sleeps] in *.

Ltac bot_step :=
  cbv beta iota;
  cbn [fst snd Bot._application Bot._bot Bot._last_initialization
       Bot.max_retries Bot.builds Bot.shutdowns Bot.sends Bot.clock_reads
       Bot.sleeps].

Lemma bot_cleanup_torn_down env (s : Bot.TelegramService) :
  all_or_nothing s ->
  torn_down (Bot._cleanup env s)
  /\ Bot.max_retries (Bot._cleanup env s) = Bot.max_retries s
  /\ Bot.builds (Bot._cleanup env s) = Bot.builds s
  /\ Bot.sends (Bot._cleanup env s) = Bot.sends s.
Proof.
  intros H. bot_cases s. rewrite bot_cleanup_eq.
  destruct H as [(-> & -> & ->) | (a & t & -> & -> & ->)]; bot_step; auto.
Qed.

Lemma bot_attempt_outcome env (s : Bot.TelegramService) :
  all_or_nothing s ->
  let r := Bot.get_bot_and_send env s in
  Bot.max_retries (snd r) = Bot.max_retries s
  /\ (Bot.builds s <= Bot.builds (snd r) <= S (Bot.builds s))%nat
  /\ (Bot.sends s <= Bot.sends (snd r) <= S (Bot.sends s))%nat
  /\ Bot.sleeps (snd r) = Bot.sleeps s
  /\ match fst r with
     | Raise _ => torn_down (snd r)
     | Return _ =>
         Bot.sends (snd r) = S (Bot.sends s)
         /\ ((exists app t,
                ready s app t /\ ready (snd r) app t
                /\ Bot.builds (snd r) = Bot.builds s
                /\ Bot.older_than_ttl (Bot.bot_clock env (Bot.clock_reads s)) t
                   = false)
             \/ (ready (snd r) (Bot.builds s)
                   (Bot.bot_clock env (S (Bot.clock_reads s)))
                 /\ Bot.builds (snd r) = S (Bot.builds s)
                 /\ (torn_down s
                     \/ exists app t,
                          ready s app t
                          /\ Bot.older_than_ttl
                               (Bot.bot_clock env (Bot.clock_reads s)) t = true)))
     end.
Proof.
  intros H. cbv zeta. bot_cases s. unfold Bot.get_bot_and_send.
  rewrite bot_ensure_initialized_eq, bot_needs_initialization_eq.
  destruct H as [(-> & -> & ->) | (a & t & -> & -> & ->)].
  - rewrite bot_initialize_eq. cbv zeta.
    destruct (Bot.build_succeeds env nb); bot_step.
    + rewrite bot_send_eq. destruct (Bot.send_succeeds env nsd); bot_step.
      * split; [reflexivity|]. split; [lia|]. split; [lia|]. split; [reflexivity|]. split; [reflexivity|]. right. auto 10.
      * rewrite bot_cleanup_eq. bot_step. repeat split; auto; lia.
    + rewrite bot_cleanup_eq. bot_step. repeat split; auto; lia.
  - destruct (Bot.older_than_ttl (Bot.bot_clock env nc) t) eqn:E.
    + rewrite bot_initialize_eq. cbv zeta.
      destruct (Bot.build_succeeds env nb); bot_step.
      * rewrite bot_send_eq. destruct (Bot.send_succeeds env nsd); bot_step.
        -- split; [reflexivity|]. split; [lia|]. split; [lia|]. split; [reflexivity|]. split; [reflexivity|]. right.
           split; [auto|]. split; [reflexivity|]. right. exists a, t. auto.
        -- rewrite bot_cleanup_eq. bot_step. repeat split; auto; lia.
      * rewrite bot_cleanup_eq. bot_step. repeat split; auto; lia.
    + bot_step. rewrite bot_send_eq. destruct (Bot.send_succeeds env nsd); bot_step.
      * split; [reflexivity|]. split; [lia|]. split; [lia|]. split; [reflexivity|]. split; [reflexivity|]. left. exists a, t. auto 10.
      * rewrite bot_cleanup_eq. bot_step. repeat split; auto; lia.
Qed.

Lemma bot_sleep_frame seconds (s : Bot.TelegramService) :
  (all_or_nothing s -> all_or_nothing (Bot.sleep seconds s))
  /\ Bot.max_retries (Bot.sleep seconds s) = Bot.max_retries s
  /\ Bot.builds (Bot.sleep seconds s) = Bot.builds s
  /\ Bot.sends (Bot.sleep seconds s) = Bot.sends s.
Proof. split; [intros H; exact H | auto]. Qed.

Lemma bot_send_from_outcome env : forall rem attempt (s : Bot.TelegramService),
  all_or_nothing s ->
  let r := Bot.send_from env rem attempt s in
  Bot.max_retries (snd r) = Bot.max_retries s
  /\ (Bot.builds s <= Bot.builds (snd r) <= Bot.builds s + rem)%nat
  /\ (Bot.sends s <= Bot.sends (snd r) <= Bot.sends s + rem)%nat
  /\ match fst r with
     | Some true => exists app t, ready (snd r) app t
     | Some false => torn_down (snd r)
     | None => all_or_nothing (snd r)
     end
  /\ ((0 < rem)%nat -> (attempt + rem = Bot.max_retries s)%nat -> fst r <> None).
Proof.
  induction rem as [|rem IH]; intros attempt s Hs; cbv zeta.
  - cbn. repeat split; auto; lia.
  - cbn [Bot.send_from].
    destruct (bot_attempt_outcome env s Hs) as (Hm & Hb & Hsd & _ & Hres).
    cbv zeta in Hm, Hb, Hsd, Hres.
    destruct (Bot.get_bot_and_send env s) as [[u|e] s1]; cbn [fst snd] in *.
    + split; [exact Hm|]. split; [lia|]. split; [lia|]. split; [|discriminate].
      destruct Hres as [_ [(app & t & _ & Hr & _) | (Hr & _)]]; eauto.
    + destruct (Z.eqb_spec (Z.of_nat attempt) (Z.of_nat (Bot.max_retries s1) - 1))
        as [Hlast|Hmore]; cbn [fst snd].
      * split; [exact Hm|]. split; [lia|]. split; [lia|].
        split; [exact Hres | discriminate].
      * destruct (IH (S attempt) (Bot.sleep (Telegram.wait_time attempt) s1))
          as (Hm' & Hb' & Hsd' & Hres' & Hsome).
        { left. exact Hres. }
        cbv zeta in Hm', Hb', Hsd', Hres', Hsome.
        change (Bot.max_retries (Bot.sleep (Telegram.wait_time attempt) s1))
          with (Bot.max_retries s1) in *.
        change (Bot.builds (Bot.sleep (Telegram.wait_time attempt) s1))
          with (Bot.builds s1) in *.
        change (Bot.sends (Bot.sleep (Telegram.wait_time attempt) s1))
          with (Bot.sends s1) in *.
        split; [congruence|]. split; [lia|]. split; [lia|].
        split; [exact Hres'|].
        intros _ Hsum. apply Hsome; lia.
Qed.

(** X16: one delivery attempt and the connection.  An attempt that raises,
    whether in the initialisation or in the sending, leaves no application,
    no bot and no time of initialisation.  An attempt that returns has sent
    once, over a connection that was either there, and then not older than
    an hour when the attempt looked at the clock, or built in this attempt,
    and then because there was none or because the one there was older than
    an hour; only in the second case is an application built. *)
Theorem connection_attempt_outcome (env : Bot.BotEnv) (s : Bot.TelegramService) :
  all_or_nothing s ->
  let r := Bot.get_bot_and_send env s in
  match fst r with
  | Raise _ => torn_down (snd r)
  | Return _ =>
      Bot.sends (snd r) = S (Bot.sends s)
      /\ ((exists app t,
             ready s app t /\ ready (snd r) app t
             /\ Bot.builds (snd r) = Bot.builds s
             /\ Bot.older_than_ttl (Bot.bot_clock env (Bot.clock_reads s)) t
                = false)
          \/ (ready (snd r) (Bot.builds s)
                (Bot.bot_clock env (S (Bot.clock_reads s)))
              /\ Bot.builds (snd r) = S (Bot.builds s)
              /\ (torn_down s
                  \/ exists app t,
                       ready s app t
                       /\ Bot.older_than_ttl
                            (Bot.bot_clock env (Bot.clock_reads s)) t = true)))
  end.
Proof.
  intros Hs. destruct (bot_attempt_outcome env s Hs) as (_ & _ & _ & _ & H).
  exact H.
Qed.

Lemma connection_attempt_outcome_witness :
  let s1 := snd (Bot.get_bot_and_send SampleBot.env (Bot.__init__ 3)) in
  let s2 := snd (Bot.get_bot_and_send SampleBot.env s1) in
  ready s1 0 Sample.last_week /\ torn_down s2.
Proof.
  intros s1 s2.
  assert (ready s1 0 Sample.last_week) as H1 by (repeat split).
  split; [exact H1|].
  pose proof (connection_attempt_outcome SampleBot.env s1) as H.
  cbv zeta in H. fold s2 in H.
  assert (fst (Bot.get_bot_and_send SampleBot.env s1) = Raise OtherError) as E
    by reflexivity.
  rewrite E in H. apply H. right. eauto.
Defined.

(** X17: [_cleanup] can be called at any time and any number of times.
    Without an application it changes nothing and asks for no shutdown;
    with one it asks for one shutdown and, whether that raises or not,
    forgets application, bot and time; called again it changes nothing. *)
Theorem connection_cleanup_idempotent (env : Bot.BotEnv) (s : Bot.TelegramService) :
  Bot._cleanup env (Bot._cleanup env s) = Bot._cleanup env s
  /\ (Bot._application s = None -> Bot._cleanup env s = s)
  /\ (forall app, Bot._application s = Some app ->
        torn_down (Bot._cleanup env s)
        /\ Bot.shutdowns (Bot._cleanup env s) = S (Bot.shutdowns s))
  /\ Bot.builds (Bot._cleanup env s) = Bot.builds s
  /\ Bot.sends (Bot._cleanup env s) = Bot.sends s.
Proof.
  destruct s as [mr app bot last nb ns nsd nc sl].
  rewrite bot_cleanup_eq. unfold torn_down.
  destruct app as [a|]; rewrite bot_cleanup_eq; bot_step.
  - repeat split; auto. discriminate.
  - repeat split; auto; discriminate.
Qed.

Lemma connection_cleanup_idempotent_witness :
  let s1 := snd (Bot.get_bot_and_send SampleBot.env (Bot.__init__ 3)) in
  torn_down (Bot._cleanup SampleBot.env s1)
  /\ Bot.shutdowns (Bot._cleanup SampleBot.env s1) = 1%nat.
Proof.
  intros s1.
  destruct (connection_cleanup_idempotent SampleBot.env s1) as (_ & _ & H & _).
  exact (H 0%nat eq_refl).
Defined.

Lemma apply_bot_op_invariant env (s : Bot.TelegramService) (op : bot_op) :
  all_or_nothing s ->
  all_or_nothing (apply_bot_op env s op)
  /\ Bot.max_retries (apply_bot_op env s op) = Bot.max_retries s.
Proof.
  intros Hs. destruct op; cbn [apply_bot_op].
  - unfold Bot.send_notification.
    destruct (bot_send_from_outcome env (Bot.max_retries s) 0 s Hs)
      as (Hm & _ & _ & Hres & _). cbv zeta in Hm, Hres.
    split; [|exact Hm].
    destruct (fst (Bot.send_from env (Bot.max_retries s) 0 s)) as [[|]|];
      [right; exact Hres | left; exact Hres | exact Hres].
  - destruct (bot_attempt_outcome env s Hs) as (Hm & _ & _ & _ & Hres).
    cbv zeta in Hm, Hres. split; [|exact Hm].
    destruct (fst (Bot.get_bot_and_send env s)).
    + destruct Hres as [_ [(app & t & _ & Hr & _) | (Hr & _)]]; right; eauto.
    + left. exact Hres.
  - destruct (bot_cleanup_torn_down env s Hs) as (Ht & Hm & _).
    split; [left; exact Ht | exact Hm].
Qed.

(** X18: from its construction on, through any notifications, single
    attempts and cleanups, the service has either an application, the bot
    of that application and the time of their making, or none of the three.
    A notification with at least one attempt allowed answers [True] with
    the connection in place or [False] with the connection gone, after at
    most [max_retries] sendings and at most as many builds. *)
Theorem connection_all_or_nothing (env : Bot.BotEnv) (n : nat) (ops : list bot_op) :
  let s := fold_left (apply_bot_op env) ops (Bot.__init__ n) in
  let r := Bot.send_notification env s in
  all_or_nothing s
  /\ Bot.max_retries s = n
  /\ ((0 < n)%nat -> fst r <> None)
  /\ match fst r with
     | Some true => exists app t, ready (snd r) app t
     | Some false => torn_down (snd r)
     | None => snd r = s
     end
  /\ (Bot.sends (snd r) <= Bot.sends s + n)%nat
  /\ (Bot.builds (snd r) <= Bot.builds s + n)%nat.
Proof.
  cbv zeta.
  assert (all_or_nothing (fold_left (apply_bot_op env) ops (Bot.__init__ n))
          /\ Bot.max_retries (fold_left (apply_bot_op env) ops (Bot.__init__ n)) = n)
    as [Hs Hn].
  { assert (all_or_nothing (Bot.__init__ n) /\ Bot.max_retries (Bot.__init__ n) = n)
      as H0 by (split; [left; repeat split | reflexivity]).
    revert H0. generalize (Bot.__init__ n).
    induction ops as [|op ops IH]; intros s [Hs Hn]; [auto|].
    cbn [fold_left]. apply IH.
    destruct (apply_bot_op_invariant env s op Hs) as [Hs' Hn'].
    split; [exact Hs' | congruence]. }
  set (s := fold_left (apply_bot_op env) ops (Bot.__init__ n)) in *.
  split; [exact Hs|]. split; [exact Hn|].
  unfold Bot.send_notification.
  destruct (bot_send_from_outcome env (Bot.max_retries s) 0 s Hs)
    as (_ & Hb & Hsd & Hres & Hsome). cbv zeta in Hb, Hsd, Hres, Hsome.
  rewrite Hn in *.
  split; [intros Hpos; apply Hsome; [exact Hpos | reflexivity]|].
  split; [|split; lia].
  destruct n as [|n]; [reflexivity|].
  destruct (fst (Bot.send_from env (S n) 0 s)) as [[|]|] eqn:E; try exact Hres.
  exfalso. apply Hsome; [lia | reflexivity | reflexivity].
Qed.

(** ** A date and its text *)

Lemma all_years_ok : forallb year_text_ok years_1000_9999 = true.
Proof. vm_compute. reflexivity. Qed.

Lemma year_text (y : Z) :
  1000 <= y <= 9999 ->
  exists a b c e,
    pretty y = String a (String b (String c (String e EmptyString)))
    /\ Str.is_digit a = true /\ Str.is_digit b = true
    /\ Str.is_digit c = true /\ Str.is_digit e = true
    /\ Strptime.int_of [a; b; c; e] = y.
Proof.
  intros Hy.
  assert (year_text_ok y = true) as H.
  { pose proof all_years_ok as Hall. rewrite forallb_forall in Hall.
    apply Hall. unfold years_1000_9999. apply in_map_iff.
    exists (Z.to_nat (y - 1000)). split; [lia|]. apply in_seq. lia. }
  unfold year_text_ok in H.
  destruct (pretty y) as [|a [|b [|c [|e [|? ?]]]]]; try discriminate.
  apply andb_true_iff in H as [H Hy']. apply andb_true_iff in H as [H He].
  apply andb_true_iff in H as [H Hc]. apply andb_true_iff in H as [Ha Hb].
  apply Z.eqb_eq in Hy'.
  exists a, b, c, e. repeat split; assumption.
Qed.

Lemma digit_not_space (c : ascii) : Str.is_digit c = true -> Str.is_space c = false.
Proof. destruct c as [[] [] [] [] [] [] [] []]; cbn; try discriminate; reflexivity. Qed.

Lemma digit_not_letter (c : ascii) :
  Str.is_digit c = true -> Str.is_lower c = false /\ Str.is_upper c = false.
Proof. destruct c as [[] [] [] [] [] [] [] []]; cbn; try discriminate; auto. Qed.

Lemma digit_to_lower (c : ascii) : Str.is_digit c = true -> Str.to_lower c = c.
Proof.
  intros H. unfold Str.to_lower. destruct (digit_not_letter c H) as [_ ->].
  reflexivity.
Qed.

Lemma all_digits_cons (c : ascii) (s : string) :
  all_digits (String c s) = Str.is_digit c && all_digits s.
Proof. reflexivity. Qed.

Lemma append_cons (c : ascii) (p s : string) :
  String c p +:+ s = String c (p +:+ s).
Proof. reflexivity. Qed.

Lemma append_nil (s : string) : EmptyString +:+ s = s.
Proof. reflexivity. Qed.

Lemma lower_app (p s : string) : Str.lower (p +:+ s) = Str.lower p +:+ Str.lower s.
Proof.
  induction p as [|c p IH]; [reflexivity|].
  rewrite !append_cons. cbn [Str.lower]. rewrite IH, append_cons. reflexivity.
Qed.

Lemma lower_digits (s : string) : all_digits s = true -> Str.lower s = s.
Proof.
  induction s as [|c s IH]; [reflexivity|]. rewrite all_digits_cons.
  intros [Hc Hs]%andb_true_iff. cbn. rewrite digit_to_lower, IH by assumption.
  reflexivity.
Qed.

Lemma rstrip_digits (s : string) :
  all_digits s = true -> s <> EmptyString -> Str.rstrip s = s.
Proof.
  induction s as [|c s IH]; [congruence|]. rewrite all_digits_cons.
  intros [Hc Hs]%andb_true_iff _.
  rewrite rstrip_cons_nonspace by (apply digit_not_space; exact Hc).
  destruct s as [|c' s']; [reflexivity|]. rewrite IH; [reflexivity|exact Hs|discriminate].
Qed.

Lemma rstrip_app (p s : string) :
  Str.rstrip s <> EmptyString -> Str.rstrip (p +:+ s) = p +:+ Str.rstrip s.
Proof.
  intros Hs. induction p as [|c p IH]; [reflexivity|].
  rewrite !append_cons. cbn [Str.rstrip]. rewrite IH.
  destruct (p +:+ Str.rstrip s) eqn:E; [|reflexivity].
  destruct p; [rewrite append_nil in E; contradiction
              | rewrite append_cons in E; discriminate].
Qed.

Lemma title_from_digits (b : bool) (s : string) :
  all_digits s = true -> Str.title_from b s = s.
Proof.
  revert b. induction s as [|c s IH]; intros b; [reflexivity|].
  rewrite all_digits_cons. intros [Hc Hs]%andb_true_iff. cbn.
  destruct (digit_not_letter c Hc) as [-> ->]. rewrite IH by exact Hs. reflexivity.
Qed.

Lemma title_from_app (s : string) : all_digits s = true ->
  forall p b, Str.title_from b (p +:+ s) = Str.title_from b p +:+ s.
Proof.
  intros Hs. induction p as [|c p IH]; intros b.
  - rewrite !append_nil. apply title_from_digits. exact Hs.
  - rewrite append_cons. cbn [Str.title_from].
    destruct (Str.is_lower c); [rewrite IH, append_cons; reflexivity|].
    destruct (Str.is_upper c); rewrite IH, append_cons; reflexivity.
Qed.

Lemma startswith_digits (old s : string) :
  no_digit old = true -> all_digits s = true -> old <> EmptyString ->
  Str.startswith old s = false.
Proof.
  intros Ho Hs Hne. destruct old as [|o old]; [congruence|].
  destruct s as [|c s]; [reflexivity|]. cbn.
  unfold no_digit in Ho. cbn in Ho. apply andb_true_iff in Ho as [Ho _].
  rewrite all_digits_cons in Hs. apply andb_true_iff in Hs as [Hc _].
  destruct (Ascii.eqb_spec o c) as [->|]; [|reflexivity].
  rewrite Hc in Ho. discriminate.
Qed.

Lemma startswith_app (s : string) : all_digits s = true ->
  forall old p, no_digit old = true ->
    Str.startswith old (p +:+ s) = Str.startswith old p.
Proof.
  intros Hs. induction old as [|o old IH]; intros p Ho; [destruct p; reflexivity|].
  destruct p as [|c p].
  - rewrite append_nil. rewrite startswith_digits by (auto; discriminate).
    reflexivity.
  - rewrite append_cons. cbn [Str.startswith].
    destruct (Ascii.eqb o c); [|reflexivity]. apply IH.
    unfold no_digit in *. cbn in Ho. apply andb_true_iff in Ho as [_ Ho]. exact Ho.
Qed.

Lemma startswith_length (old p : string) :
  Str.startswith old p = true -> (String.length old <= String.length p)%nat.
Proof.
  revert p. induction old as [|o old IH]; intros p H; [cbn; lia|].
  destruct p as [|c p]; [discriminate|]. cbn in *.
  destruct (Ascii.eqb o c); [|discriminate]. apply IH in H. lia.
Qed.

Lemma replace_from_digits (old new s : string) :
  no_digit old = true -> old <> EmptyString -> all_digits s = true ->
  Str.replace_from old new 0 s = s.
Proof.
  intros Ho Hne. induction s as [|c s IH]; intros Hs; [reflexivity|].
  cbn [Str.replace_from]. rewrite startswith_digits by assumption.
  rewrite all_digits_cons in Hs. apply andb_true_iff in Hs as [_ Hs].
  rewrite IH by exact Hs. reflexivity.
Qed.

Lemma append_assoc (a b c : string) : (a +:+ b) +:+ c = a +:+ (b +:+ c).
Proof.
  induction a as [|x a IH]; [reflexivity|].
  rewrite !append_cons, IH. reflexivity.
Qed.

Lemma replace_from_app (old new s : string) :
  no_digit old = true -> old <> EmptyString -> all_digits s = true ->
  forall p skip, (skip <= String.length p)%nat ->
    Str.replace_from old new skip (p +:+ s)
    = Str.replace_from old new skip p +:+ s.
Proof.
  intros Ho Hne Hs. induction p as [|c p IH]; intros skip Hskip.
  - cbn in Hskip. assert (skip = 0%nat) as -> by lia. rewrite append_nil.
    rewrite replace_from_digits by assumption. reflexivity.
  - rewrite append_cons. cbn [Str.replace_from]. destruct skip as [|k].
    + rewrite <- append_cons.
      rewrite startswith_app by assumption.
      destruct (Str.startswith old (String c p)) eqn:E.
      * rewrite IH, append_assoc; [reflexivity|].
        apply startswith_length in E. cbn in E. lia.
      * rewrite IH by lia. rewrite append_cons. reflexivity.
    + rewrite IH by (cbn in Hskip; lia). reflexivity.
Qed.

Lemma replace_app (old new p s : string) :
  no_digit old = true -> old <> EmptyString -> all_digits s = true ->
  Str.replace old new (p +:+ s) = Str.replace old new p +:+ s.
Proof.
  intros Ho Hne Hs. unfold Str.replace. destruct old; [congruence|].
  apply replace_from_app; auto. lia.
Qed.

Lemma normalize_before_digits (c : ascii) (p y : string) :
  Str.is_space (Str.to_lower c) = false ->
  all_digits y = true -> y <> EmptyString ->
  DateParser._normalize_date_string (String c p +:+ y)
  = normalize_inner (String c p) +:+ y.
Proof.
  intros Hc Hy Hne. unfold DateParser._normalize_date_string, normalize_inner.
  rewrite lower_app, (lower_digits y Hy).
  assert (Str.strip (Str.lower (String c p) +:+ y) = Str.lower (String c p) +:+ y)
    as ->.
  { unfold Str.strip. cbn [Str.lower]. rewrite append_cons. cbn [Str.lstrip].
    rewrite Hc. rewrite <- append_cons. rewrite rstrip_app; rewrite rstrip_digits;
      auto. }
  unfold DateParser.MONTH_REPLACEMENTS. cbn [fold_left].
  rewrite !replace_app by (reflexivity || discriminate || exact Hy).
  unfold Str.title. apply title_from_app. exact Hy.
Qed.

Lemma regex_first t ts s f upd rest cs r :
  Strptime.candidates t s = (upd, rest) :: cs ->
  Strptime.regex_match ts rest (upd f) = Some r ->
  Strptime.regex_match (t :: ts) s f = Some r.
Proof. intros Hc Hr. cbn [Strptime.regex_match]. rewrite Hc, Hr. reflexivity. Qed.

Lemma regex_space_before_digit ts (a : ascii) (r : string) f :
  Str.is_digit a = true ->
  Strptime.regex_match (Strptime.TSpaces :: ts) (String " " (String a r)) f
  = Strptime.regex_match ts (String a r) f.
Proof.
  intros Ha. cbn [Strptime.regex_match Strptime.candidates Strptime.spaces].
  rewrite (digit_not_space a Ha).
  change (Str.is_space " ") with true. cbn [app map].
  destruct (Strptime.regex_match ts (String a r) f); reflexivity.
Qed.

Lemma regex_year (a b c e : ascii) f :
  Str.is_digit a = true -> Str.is_digit b = true ->
  Str.is_digit c = true -> Str.is_digit e = true ->
  Strptime.regex_match [Strptime.TYear]
    (String a (String b (String c (String e EmptyString)))) f
  = Some (Strptime.set_year (Strptime.int_of [a; b; c; e]) f, EmptyString).
Proof.
  intros Ha Hb Hc He.
  cbn [Strptime.regex_match Strptime.candidates]. unfold Strptime.alternatives,
    Strptime.YEAR_ALTS. cbn [flat_map Strptime.accepts].
  rewrite Ha, Hb, Hc, He. reflexivity.
Qed.

Lemma candidates_day (d : Z) (r : string) :
  In d DAYS ->
  exists cs, Strptime.candidates Strptime.TDay (day_text d +:+ r)
             = (Strptime.set_day d, r) :: cs.
Proof.
  intros Hd. cbn in Hd.
  repeat (destruct Hd as [<-|Hd]); try contradiction; eexists; lazy; reflexivity.
Qed.

Lemma candidates_space_month (m : Z) (r : string) :
  In m MONTHS ->
  Strptime.candidates Strptime.TSpaces (String " " (month_name m +:+ r))
  = [(fun f => f, month_name m +:+ r)].
Proof.
  intros Hm. cbn in Hm.
  repeat (destruct Hm as [<-|Hm]); try contradiction; lazy; reflexivity.
Qed.

Lemma candidates_month (m : Z) (r : string) :
  In m MONTHS ->
  Strptime.candidates Strptime.TMonthName (month_name m +:+ String " " r)
  = [(Strptime.set_month m, String " " r)].
Proof.
  intros Hm. cbn in Hm.
  repeat (destruct Hm as [<-|Hm]); try contradiction; lazy; reflexivity.
Qed.

Lemma strptime_canonical (m d : Z) (a b c e : ascii) :
  In m MONTHS -> In d DAYS ->
  Str.is_digit a = true -> Str.is_digit b = true ->
  Str.is_digit c = true -> Str.is_digit e = true ->
  Strptime.strptime
    (date_prefix m d +:+ String a (String b (String c (String e EmptyString))))
    "%d %B %Y"
  = Datetime.make (Strptime.int_of [a; b; c; e]) m d.
Proof.
  intros Hm Hd Ha Hb Hc He.
  unfold Strptime.strptime.
  change (Strptime.compile "%d %B %Y")
    with [Strptime.TDay; Strptime.TSpaces; Strptime.TMonthName;
          Strptime.TSpaces; Strptime.TYear].
  cbn [Strptime.has_bad_directive existsb orb].
  unfold date_prefix. rewrite !append_assoc, !append_cons, !append_nil.
  destruct (candidates_day d
              (String " " (month_name m +:+
                 String " " (String a (String b (String c (String e EmptyString))))))
              Hd) as [cs Hcs].
  erewrite regex_first;
    [
    | exact Hcs
    | eapply regex_first; [apply candidates_space_month; exact Hm|];
      eapply regex_first; [apply candidates_month; exact Hm|];
      rewrite regex_space_before_digit by exact Ha;
      apply regex_year; assumption ].
  reflexivity.
Qed.

Lemma all_prefixes_normal : forallb prefix_normal (list_prod MONTHS DAYS) = true.
Proof. vm_compute. reflexivity. Qed.

Lemma date_prefix_normal (m d : Z) :
  In m MONTHS -> In d DAYS ->
  normalize_inner (date_prefix m d) = date_prefix m d
  /\ exists c p, date_prefix m d = String c p
                 /\ Str.is_digit c = true
                 /\ Str.is_space (Str.to_lower c) = false.
Proof.
  intros Hm Hd. pose proof all_prefixes_normal as H.
  rewrite forallb_forall in H. specialize (H (m, d) (in_prod _ _ _ _ Hm Hd)).
  unfold prefix_normal in H. cbn [fst snd] in H.
  apply andb_true_iff in H as [Hn Hc]. apply String.eqb_eq in Hn.
  split; [exact Hn|].
  destruct (date_prefix m d) as [|c p]; [discriminate|].
  exists c, p. split; [reflexivity|]. split; [exact Hc|].
  destruct c as [[] [] [] [] [] [] [] []]; try discriminate Hc; reflexivity.
Qed.

Lemma format_date_text (y m d : Z) :
  DateParser.format_date (Some (mkDatetime y m d 0))
  = date_prefix m d +:+ pretty y.
Proof.
  unfold DateParser.format_date, DateParser.strftime_d_B_Y, date_prefix, day_text,
    month_name. cbn [year month day]. rewrite !append_assoc. reflexivity.
Qed.

Lemma round_trip_of_made (y m d : Z) (t : datetime) :
  Datetime.make y m d = Return t -> 1000 <= y ->
  DateParser.parse_date (DateParser.format_date (Some t)) = Return (Some t).
Proof.
  intros Hmake Hy.
  pose proof Hmake as Hv. apply make_valid in Hv as (-> & Hy' & Hm & Hd).
  pose proof (days_in_month_le_31 y m) as H31.
  assert (In m MONTHS) as Hmi by (cbn; lia).
  assert (In d DAYS) as Hdi by (cbn; lia).
  destruct (year_text y ltac:(lia)) as (a & b & c & e & Htext & Ha & Hb & Hc & He & Hint).
  rewrite format_date_text, Htext.
  destruct (date_prefix_normal m d Hmi Hdi) as (Hnorm & c0 & p0 & Hp & _ & Hc0).
  assert (all_digits (String a (String b (String c (String e EmptyString)))) = true)
    as Hdigits.
  { unfold all_digits. cbn. rewrite Ha, Hb, Hc, He. reflexivity. }
  unfold DateParser.parse_date.
  assert (Str.is_empty (date_prefix m d +:+
            String a (String b (String c (String e EmptyString)))) = false) as ->.
  { rewrite Hp. reflexivity. }
  assert (DateParser._normalize_date_string
            (date_prefix m d +:+ String a (String b (String c (String e EmptyString))))
          = date_prefix m d +:+ String a (String b (String c (String e EmptyString))))
    as ->.
  { rewrite Hp at 1. rewrite normalize_before_digits by (auto; discriminate).
    rewrite <- Hp, Hnorm. reflexivity. }
  unfold DateParser.DATE_FORMATS. cbn [DateParser.try_formats].
  rewrite strptime_canonical by assumption. rewrite Hint, Hmake. reflexivity.
Qed.

(** X19: a date that exists, from the year 1000 on, comes back from its
    own text: [parse_date] of what [format_date] writes for it, the day on
    two digits, the English month name and the year, is that date. *)
Theorem format_parse_round_trip (y m d : Z) (t : datetime) :
  Datetime.make y m d = Return t -> 1000 <= y ->
  DateParser.parse_date (DateParser.format_date (Some t)) = Return (Some t).
Proof. apply round_trip_of_made. Qed.

Lemma format_parse_round_trip_witness :
  DateParser.format_date (Some (mkDatetime 2024 2 29 0)) = "29 February 2024"
  /\ DateParser.parse_date "29 February 2024"
     = Return (Some (mkDatetime 2024 2 29 0)).
Proof.
  split; [reflexivity|].
  apply (format_parse_round_trip 2024 2 29 (mkDatetime 2024 2 29 0));
    [reflexivity | lia].
Defined.

(** ** Building an item *)

Lemma parse_date_made (s : string) (t : datetime) :
  DateParser.parse_date s = Return (Some t) ->
  exists y m d, Datetime.make y m d = Return t.
Proof.
  unfold DateParser.parse_date. destruct (Str.is_empty s); [discriminate|].
  apply try_formats_valid.
Qed.

Lemma format_date_not_sentinel (y m d : Z) (t : datetime) :
  Datetime.make y m d = Return t ->
  DateParser.format_date (Some t) <> "Fecha no disponible".
Proof.
  intros Hmake. apply make_valid in Hmake as (-> & _ & Hm & Hd).
  pose proof (days_in_month_le_31 y m).
  rewrite format_date_text.
  destruct (date_prefix_normal m d ltac:(cbn; lia) ltac:(cbn; lia))
    as (_ & c & p & -> & Hc & _).
  rewrite append_cons. intros Heq. injection Heq as -> _. discriminate Hc.
Qed.

(** X20: building an item never fails, whatever the date text.  The item
    has the title, date text, link and image it was given, and as parsed
    date what [parse_date] makes of the date text.  Its formatted date is
    [Fecha no disponible] exactly when the date text could not be parsed;
    otherwise, from the year 1000 on, the formatted date reads back as the
    parsed date. *)
Theorem new_item_fields (t d l : string) (img : option string) :
  exists item,
    Models.new t d l img = Return item
    /\ title item = t /\ date item = d /\ link item = l /\ image_url item = img
    /\ DateParser.parse_date d = Return (_parsed_date item)
    /\ (formatted_date item = "Fecha no disponible" <-> _parsed_date item = None)
    /\ (forall dt, _parsed_date item = Some dt -> 1000 <= year dt ->
          DateParser.parse_date (formatted_date item) = Return (Some dt)).
Proof.
  exists (mkNewsItem t d l img (ParseSpec.parse d)).
  split; [apply new_item_always_succeeds|].
  cbn [title date link image_url _parsed_date].
  repeat (split; [reflexivity|]).
  split; [apply parse_date_refines|].
  unfold formatted_date. cbn [_parsed_date].
  split.
  - destruct (ParseSpec.parse d) as [dt|] eqn:E; [|split; reflexivity].
    split; [|discriminate]. intros H. exfalso.
    pose proof (parse_date_refines d) as Hp. rewrite E in Hp.
    apply parse_date_made in Hp as (y & m & dd & Hmake).
    exact (format_date_not_sentinel _ _ _ _ Hmake H).
  - intros dt E Hy. rewrite E.
    pose proof (parse_date_refines d) as Hp. rewrite E in Hp.
    apply parse_date_made in Hp as (y & m & dd & Hmake).
    apply (round_trip_of_made y m dd dt Hmake).
    apply make_valid in Hmake as (-> & _). exact Hy.
Qed.

Lemma new_item_fields_witness :
  exists item,
    Models.new "Line-up" "25 oktober 2024" "https://www.rockwerchter.be/en/news/a" None
    = Return item
    /\ formatted_date item = "25 October 2024"
    /\ DateParser.parse_date (formatted_date item)
       = Return (Some (mkDatetime 2024 10 25 0)).
Proof.
  destruct (new_item_fields "Line-up" "25 oktober 2024"
              "https://www.rockwerchter.be/en/news/a" None)
    as (item & Hnew & _ & _ & _ & _ & _ & _ & Hback).
  exists item. split; [exact Hnew|].
  assert (_parsed_date item = Some (mkDatetime 2024 10 25 0)) as Hp
    by (vm_compute in Hnew; injection Hnew as <-; reflexivity).
  split.
  - unfold formatted_date. rewrite Hp. reflexivity.
  - apply Hback; [exact Hp | cbn; lia].
Defined.

Lemma connection_all_or_nothing_witness :
  fst (Bot.send_notification SampleBot.env_down (Bot.__init__ 3)) = Some false
  /\ torn_down (snd (Bot.send_notification SampleBot.env_down (Bot.__init__ 3))).
Proof.
  destruct (connection_all_or_nothing SampleBot.env_down 3 [])
    as (_ & _ & _ & H & _).
  cbv zeta in H. cbn [fold_left] in H.
  assert (fst (Bot.send_notification SampleBot.env_down (Bot.__init__ 3))
          = Some false) as E by reflexivity.
  split; [exact E|]. rewrite E in H. exact H.
Defined.

(** ** A store built on a file *)

(** X21: the store right after its construction.  On a file that is
    missing or cannot be read nothing counts as processed, so that every
    fetched item is handed to delivery; a missing file is created empty
    when it can be written, with the one save of the construction, and an
    unreadable one is left as it is, without a save.  On a readable file
    the dictionary is the content of the file, the processed links are its
    keys, and nothing is saved. *)
Theorem store_from_file (f : file_state) (can_write : bool)
  (items : list NewsItem) (x : NewsItem) :
  let s := Storage.__init__ f can_write in
  match f with
  | Json content =>
      _processed_news s = content
      /\ (Storage.is_processed s x = true <-> link x ∈ dom content)
      /\ file s = f /\ saves s = 0%nat
  | Missing =>
      Storage.is_processed s x = false
      /\ Storage.get_unprocessed_news s items = items
      /\ file s = (if can_write then Json ∅ else Missing)
      /\ saves s = 1%nat
  | Unreadable =>
      Storage.is_processed s x = false
      /\ Storage.get_unprocessed_news s items = items
      /\ file s = Unreadable /\ saves s = 0%nat
  end.
Proof.
  cbv zeta.
  assert (forall s, _processed_links s = ∅ ->
                    Storage.is_processed s x = false
                    /\ Storage.get_unprocessed_news s items = items) as Hempty.
  { intros s Hs. split.
    - apply is_processed_false. rewrite Hs. set_solver.
    - unfold Storage.get_unprocessed_news. induction items as [|y items IH];
        [reflexivity|].
      cbn. assert (Storage.is_processed s y = false) as ->
        by (apply is_processed_false; rewrite Hs; set_solver).
      cbn. rewrite IH. reflexivity. }
  destruct f as [| |content].
  - destruct (Hempty (Storage.__init__ Missing can_write)) as [H1 H2];
      [destruct can_write; reflexivity|].
    split; [exact H1|]. split; [exact H2|]. destruct can_write; split; reflexivity.
  - destruct (Hempty (Storage.__init__ Unreadable can_write)) as [H1 H2];
      [reflexivity|].
    split; [exact H1|]. split; [exact H2|]. split; reflexivity.
  - split; [reflexivity|]. split; [apply is_processed_true|]. split; reflexivity.
Qed.

(** ** A whole cycle *)

Lemma StronglySorted_sublist {A} (R : A -> A -> Prop) (l1 l2 : list A) :
  sublist l1 l2 -> StronglySorted R l2 -> StronglySorted R l1.
Proof.
  induction 1 as [|x l1 l2 Hsub IH|x l1 l2 Hsub IH]; intros Hs.
  - constructor.
  - apply StronglySorted_cons in Hs as [Hall Hs].
    apply StronglySorted_cons. split; [|apply IH; exact Hs].
    rewrite Forall_forall in *. intros y Hy. apply Hall.
    eapply elem_of_sublist; eassumption.
  - apply StronglySorted_cons in Hs as [_ Hs]. apply IH. exact Hs.
Qed.

(** X22: a cycle in which the site answers with status 200 and every
    delivery attempt goes through.  The cycle starts with the request; the
    cards of the page that are not yet in the store, those and no other,
    are then delivered with one attempt and one marking each, in ascending
    order (none is less than one delivered before it, so that those without
    a date come last); when something was delivered the cycle ends with the
    prune, and otherwise right after the request. *)
Theorem cycle_delivers_new_items_in_order (env : Env) (max_retries : nat)
  (w : World) (cards : list NewsItem) :
  (0 < max_retries)%nat ->
  (forall n, attempt_succeeds env n = true) ->
  site env (requests_made w) = HttpResponse 200 cards ->
  let fresh := Storage.get_unprocessed_news (storage w) (News.sorted cards) in
  let w' := snd (Monitor._check_for_updates env max_retries w) in
  trace w'
  = trace w ++ EvFetch :: flat_map delivered_at_once fresh
      ++ (match fresh with [] => [] | _ => [EvCleanup] end)
  /\ StronglySorted (fun a b => Models.__lt__ b a = false) fresh
  /\ (forall x, x ∈ fresh <-> x ∈ cards /\ Storage.is_processed (storage w) x = false)
  /\ attempts_made w' = (length fresh + attempts_made w)%nat.
Proof.
  intros Hpos Hok Hsite. cbv zeta.
  set (w1 := emit EvFetch
               (mkWorld (storage w) (attempts_made w) (clock_reads w)
                        (S (requests_made w)) (trace w))).
  assert (snd (Monitor._check_for_updates env max_retries w)
          = Monitor._process_news_batch env max_retries (News.sorted cards) w1)
    as -> by (unfold Monitor._check_for_updates, News.get_news;
              rewrite Hsite; reflexivity).
  assert (storage w1 = storage w) as Hst by reflexivity.
  assert (trace w1 = trace w ++ [EvFetch]) as Htr by reflexivity.
  assert (attempts_made w1 = attempts_made w) as Hat by reflexivity.
  split; [|split; [|split]].
  - destruct (Storage.get_unprocessed_news (storage w) (News.sorted cards))
      as [|y fresh] eqn:E.
    + rewrite process_news_batch_nothing_new by (rewrite Hst; exact E).
      rewrite Htr. reflexivity.
    + rewrite process_news_batch_something_new by (rewrite Hst, E; discriminate).
      rewrite Hst, E.
      destruct (monitor_cleanup_old_entries_trace env
                  (Monitor.process_items env max_retries (y :: fresh) w1))
        as [Hc _].
      rewrite Hc.
      destruct (process_items_all_succeed env max_retries (y :: fresh) w1 Hpos Hok)
        as (Hp & _). cbv zeta in Hp.
      rewrite Hp, Htr, <- !app_assoc. reflexivity.
  - eapply StronglySorted_sublist;
      [apply get_unprocessed_news_sublist | apply sorted_sorted].
  - intros x. unfold Storage.get_unprocessed_news.
    rewrite !list_elem_of_In, filter_In, negb_true_iff, <- !list_elem_of_In.
    rewrite (sorted_perm cards). reflexivity.
  - destruct (Storage.get_unprocessed_news (storage w) (News.sorted cards))
      as [|y fresh] eqn:E.
    + rewrite process_news_batch_nothing_new by (rewrite Hst; exact E).
      rewrite Hat. reflexivity.
    + rewrite process_news_batch_something_new by (rewrite Hst, E; discriminate).
      rewrite Hst, E.
      destruct (process_items_all_succeed env max_retries (y :: fresh) w1 Hpos Hok)
        as (_ & Ha & _). cbv zeta in Ha.
      change (attempts_made (Monitor.cleanup_old_entries env ?x))
        with (attempts_made x).
      rewrite Ha, Hat. reflexivity.
Qed.

Lemma cycle_delivers_new_items_in_order_witness :
  trace (snd (Monitor._check_for_updates SampleRun.env_three_items 3
                SampleRun.world_has_dated))
  = [ EvFetch;
      EvAttempt (link Sample.dated_later) true; EvMark (link Sample.dated_later);
      EvAttempt (link Sample.undated) false; EvMark (link Sample.undated);
      EvCleanup ].
Proof.
  destruct (cycle_delivers_new_items_in_order SampleRun.env_three_items 3
              SampleRun.world_has_dated
              [Sample.undated; Sample.dated_later; Sample.dated]
              ltac:(lia) (fun n => eq_refl) eq_refl) as [H _].
  rewrite H. vm_compute. reflexivity.
Defined.
